(** * Spendwizer: the recurring-transaction engine of [src/App.tsx]

    A shallow embedding of [processRecurringExpenses] (App.tsx, lines 82-126)
    together with the parts of the JavaScript [Date] object and of date-fns
    ([format], [addDays], [isBefore], [isToday]) that it calls, and the
    records of the types module ([RecurringRule], [Expense]); then of the
    storage service (services/storageService), of the handlers of the
    component [App] and the effect it runs when mounted, and of the submit
    handler of the form [AddExpense] (components/Transactions.tsx). *)

From Stdlib Require Import ZArith List String Ascii Bool Lia PrimFloat.
From Stdlib Require DecimalString.
Import ListNotations.
Open Scope Z_scope.

(** ** Proleptic Gregorian calendar

    ECMAScript dates count milliseconds from 1970-01-01T00:00Z and convert
    them to year/month/day in the proleptic Gregorian calendar (ECMA-262,
    "Day Number and Time within Day", "MakeDay").  The two conversions below
    are the usual era-based ones: an era is 400 years, 146097 days, and
    starts on 1 March. *)
Module Calendar.

Definition msPerDay : Z := 86400000.

(** Day number (days since 1970-01-01) of the day [d] of month [m] (1-12)
    of year [y].  A day past the end of the month runs over into the next
    month, as [MakeDay] does. *)
Definition daysFromCivil (y m d : Z) : Z :=
  let y' := if m <=? 2 then y - 1 else y in
  let era := y' / 400 in
  let yoe := y' - era * 400 in
  let mp := if 2 <? m then m - 3 else m + 9 in
  let doy := (153 * mp + 2) / 5 + d - 1 in
  let doe := yoe * 365 + yoe / 4 - yoe / 100 + doy in
  era * 146097 + doe - 719468.

(** Within an era, from the day of the era (0 is 1 March of the first
    year): the year of the era, the day of that year (counted from
    1 March), and the month index (0 is March). *)
Definition yearOfEraDay (doe : Z) : Z :=
  (doe - doe / 1460 + doe / 36524 - doe / 146096) / 365.

Definition dayOfYear (doe : Z) : Z :=
  let yoe := yearOfEraDay doe in
  doe - (365 * yoe + yoe / 4 - yoe / 100).

Definition monthIndex (doe : Z) : Z := (5 * dayOfYear doe + 2) / 153.

Definition dayOfMonth (doe : Z) : Z :=
  dayOfYear doe - (153 * monthIndex doe + 2) / 5 + 1.

(** Year, month (1-12) and day of month of a day number. *)
Definition civilFromDays (z : Z) : Z * Z * Z :=
  let z' := z + 719468 in
  let era := z' / 146097 in
  let doe := z' - era * 146097 in
  let mp := monthIndex doe in
  let m := if mp <? 10 then mp + 3 else mp - 9 in
  let y := yearOfEraDay doe + era * 400 in
  (if m <=? 2 then y + 1 else y, m, dayOfMonth doe).

End Calendar.

(** ** Decimal fields of a date string *)
Module Digits.

Definition digitValue (c : ascii) : option Z :=
  let n := Z.of_nat (nat_of_ascii c) in
  if (48 <=? n) && (n <=? 57) then Some (n - 48) else None.

(** Decimal numeral of a natural number, no leading zeros. *)
Definition decimal (n : Z) : string :=
  DecimalString.NilZero.string_of_uint (N.to_uint (Z.to_N n)).

Fixpoint zeros (n : nat) : string :=
  match n with
  | O => EmptyString
  | S n' => String "0" (zeros n')
  end.

(** date-fns [addLeadingZeros(number, targetLength)] on a number that is
    not negative: the numeral, padded on the left with zeros to at least
    [targetLength] characters. *)
Definition addLeadingZeros (n : Z) (targetLength : nat) : string :=
  let s := decimal n in
  (zeros (targetLength - String.length s) ++ s)%string.

(** Value of a string of decimal digits, read from the left onto [acc];
    [None] when a character is not a digit. *)
Fixpoint readDigits (s : string) (acc : Z) : option Z :=
  match s with
  | EmptyString => Some acc
  | String c s' =>
      match digitValue c with
      | Some v => readDigits s' (10 * acc + v)
      | None => None
      end
  end.

End Digits.

(** ** The JavaScript [Date] object and the date-fns functions used

    A [Date] holds a time value, the milliseconds since the epoch in UTC, or
    is the Invalid Date ([None]).  What the host supplies is gathered in
    [Env]: the offset of local time from UTC, the reading of the clock, the
    identifiers that successive calls of [uuidv4()] return, and what
    [new Date(s)] answers for a string [s] that is not a date in the
    date-only form YYYY-MM-DD (the other forms of the Date Time String
    Format of ECMA-262, and whatever else the parser of the engine
    accepts, which ECMA-262 leaves to the implementation).

    Assumptions of the model: the offset [tz] is the same for all
    instants (no daylight-saving change inside the dates a run touches);
    the clock shows the same instant [now] every time one run reads it
    ([new Date()] at line 84, [Date.now()] at line 101 and inside [isToday]),
    the run being synchronous and short; and time values are integers of
    any size (ECMAScript turns a time value beyond 8.64e15 ms, some 270000
    years from the epoch, into the Invalid Date). *)
Definition JSDate : Type := option Z.

Record Env : Type := mkEnv {
  tz : Z;                   (* local time = UTC + tz, in milliseconds *)
  now : Z;                  (* the clock, in milliseconds since the epoch *)
  uuidv4 : nat -> string;   (* the n-th identifier the generator returns *)
  otherDate : string -> JSDate
                            (* new Date(s), s not a date YYYY-MM-DD *)
}.

Module DateFns.
Import Calendar Digits.

(** The local calendar day (as a day number) in which instant [t] falls. *)
Definition localDay (env : Env) (t : Z) : Z := (t + tz env) / msPerDay.

(** [new Date(s)].  The date-only form YYYY-MM-DD is the form in which the
    application writes every date (App.tsx line 115, and the date input of
    the add form, Transactions.tsx line 413).  ECMA-262 ("Date Time String
    Format"): a date-only form is interpreted as a UTC time.  Months run
    from 01 to 12 and days from 01 to 31; a day past the end of its month
    runs over into the next month, which is what V8 does (other engines may
    answer Invalid Date there).  The empty string is the Invalid Date in
    every engine.  For every other string, the ones of ten characters whose
    fields are not digits or are out of range included, the answer is the
    one of the host, [otherDate]. *)
Definition newDate (env : Env) (s : string) : JSDate :=
  match s with
  | EmptyString => None
  | String y1 (String y2 (String y3 (String y4 (String "-"
      (String m1 (String m2 (String "-"
        (String d1 (String d2 EmptyString))))))))) =>
      match readDigits (String y1 (String y2 (String y3 (String y4 EmptyString)))) 0,
            readDigits (String m1 (String m2 EmptyString)) 0,
            readDigits (String d1 (String d2 EmptyString)) 0 with
      | Some y, Some m, Some d =>
          if (1 <=? m) && (m <=? 12) && (1 <=? d) && (d <=? 31)
          then Some (daysFromCivil y m d * msPerDay)
          else otherDate env s
      | _, _, _ => otherDate env s
      end
  | _ => otherDate env s
  end.

(** [new Date()]: the clock. *)
Definition newDateNow (env : Env) : JSDate := Some (now env).

(** [format(date, 'yyyy-MM-dd')]: the local calendar date.  The token yyyy
    is the year of the era (year 0 and before count backwards from 1),
    padded to four digits at least; MM and dd are padded to two.  On the
    Invalid Date [format] throws a RangeError: [None]. *)
Definition yearOfEra (y : Z) : Z := if 0 <? y then y else 1 - y.

Definition formatDay (day : Z) : string :=
  let '(y, m, d) := civilFromDays day in
  (addLeadingZeros (yearOfEra y) 4 ++ "-" ++ addLeadingZeros m 2 ++ "-"
     ++ addLeadingZeros d 2)%string.

Definition formatTime (env : Env) (t : Z) : string :=
  formatDay (localDay env t).

Definition format (env : Env) (date : JSDate) : option string :=
  option_map (formatTime env) date.

(** [addDays(date, amount)]: date-fns sets the local day of the month to
    day + amount and keeps the local time of day; with a fixed offset that
    is [amount] times 24 hours later. *)
Definition addDays (date : JSDate) (amount : Z) : JSDate :=
  option_map (fun t => t + amount * msPerDay) date.

(** [isBefore(date, dateToCompare)]: comparison of the time values; a
    comparison with NaN is false. *)
Definition isBefore (date dateToCompare : JSDate) : bool :=
  match date, dateToCompare with
  | Some a, Some b => a <? b
  | _, _ => false
  end.

(** [startOfDay(date)]: local midnight of the day of [date]. *)
Definition startOfDay (env : Env) (date : JSDate) : JSDate :=
  option_map (fun t => localDay env t * msPerDay - tz env) date.

(** [isSameDay(a, b)]: [+startOfDay(a) === +startOfDay(b)]; NaN is not
    equal to anything. *)
Definition isSameDay (env : Env) (a b : JSDate) : bool :=
  match startOfDay env a, startOfDay env b with
  | Some x, Some y => x =? y
  | _, _ => false
  end.

(** [isToday(date)]: [isSameDay(date, Date.now())]. *)
Definition isToday (env : Env) (date : JSDate) : bool :=
  isSameDay env date (Some (now env)).

End DateFns.

Import Calendar DateFns.

(** ** Data model (the types module) *)

Inductive TransactionType : Type := income | expense.

Inductive Category : Type :=
| Food | Transport | Shopping | Bills | Entertainment | Health | Education
| OtherCategory
| Salary | Business | Gift | Investment | Refund.

Inductive PaymentMode : Type := Cash | UPI | Card | Bank | OtherMode.

(** What the program holds where the types say [number]: a double, or
    [null], which is what [JSON.parse] gives back for a number that was NaN
    or infinite when [JSON.stringify] wrote it. *)
Inductive JSNumber : Type :=
| Num (f : float)
| Null.

(** [Omit<Expense, 'id' | 'date' | 'createdAt'>].  [amount] is a JavaScript
    number.  [note] is optional.  [type] is declared mandatory, but records
    stored before the field existed lack it and the code reads it
    everywhere as possibly absent ([e.type || 'expense'], [!e.type]; here
    at App.tsx line 102), so the stored template has it optional. *)
Record ExpenseTemplate : Type := mkTemplate {
  t_amount : JSNumber;
  t_category : Category;
  t_paymentMode : PaymentMode;
  t_note : option string;
  t_type : option TransactionType
}.

Record Expense : Type := mkExpense {
  e_id : string;
  e_amount : JSNumber;
  e_category : Category;
  e_paymentMode : PaymentMode;
  e_date : string;
  e_note : option string;
  e_createdAt : Z;
  e_type : TransactionType
}.

(** [frequency] is declared as one of four tags; the rules are read back
    from storage with [JSON.parse] and compared with [===], so at run time
    the field is whatever string was stored. *)
Record RecurringRule : Type := mkRule {
  id : string;
  frequency : string;
  nextDueDate : string;
  expenseTemplate : ExpenseTemplate;
  active : bool;
  lastRun : option string
}.

(** ** JSON

    [localStorage] holds JSON text.  A text is kept here as the value that
    [JSON.stringify] was given; [JSON.parse] hands back the image of that
    value: what the text written for it parses to.  Of a number the image
    is the number itself when it is finite and not the negative zero; the
    negative zero is written as 0, and NaN and the infinities as [null].
    Strings, booleans and [null] come back as they were.  A property whose
    value is [undefined] is not written; the optional properties that the
    records here keep as an [option] read as [undefined] whether they are
    absent or hold [undefined], so their image is themselves. *)
Module JSON.

Inductive Text (A : Type) : Type :=
| stringify (v : A).
Arguments stringify {A} v.

Definition parse {A : Type} (image : A -> A) (text : Text A) : A :=
  match text with
  | stringify v => image v
  end.

End JSON.

Definition jsonNumber (n : JSNumber) : JSNumber :=
  match n with
  | Num f =>
      if is_nan f || is_infinity f then Null
      else if is_zero f then Num 0%float
      else Num f
  | Null => Null
  end.

Definition jsonTemplate (t : ExpenseTemplate) : ExpenseTemplate :=
  {| t_amount := jsonNumber (t_amount t);
     t_category := t_category t;
     t_paymentMode := t_paymentMode t;
     t_note := t_note t;
     t_type := t_type t |}.

Definition jsonExpense (e : Expense) : Expense :=
  {| e_id := e_id e;
     e_amount := jsonNumber (e_amount e);
     e_category := e_category e;
     e_paymentMode := e_paymentMode e;
     e_date := e_date e;
     e_note := e_note e;
     e_createdAt := e_createdAt e;
     e_type := e_type e |}.

Definition jsonRule (rule : RecurringRule) : RecurringRule :=
  {| id := id rule;
     frequency := frequency rule;
     nextDueDate := nextDueDate rule;
     expenseTemplate := jsonTemplate (expenseTemplate rule);
     active := active rule;
     lastRun := lastRun rule |}.

Definition isFrequency (f : string) : bool :=
  (f =? "daily")%string || (f =? "weekly")%string
  || (f =? "monthly")%string || (f =? "yearly")%string.

(** ** Outcomes

    The loop of the engine is modelled with fuel.  A computation returns a
    value, throws, or is cut off when the fuel is used up. *)
Inductive outcome (A : Type) : Type :=
| Returns (a : A)
| Throws
| OutOfFuel.
Arguments Returns {A} a.
Arguments Throws {A}.
Arguments OutOfFuel {A}.

Definition bind {A B : Type} (c : outcome A) (k : A -> outcome B) : outcome B :=
  match c with
  | Returns a => k a
  | Throws => Throws
  | OutOfFuel => OutOfFuel
  end.

Definition ofOption {A : Type} (o : option A) : outcome A :=
  match o with
  | Some a => Returns a
  | None => Throws
  end.

Declare Scope outcome_scope.
Notation "x <- c ;; k" := (bind c (fun x => k))
  (at level 61, c at next level, right associativity) : outcome_scope.
Notation "' pat <- c ;; k" := (bind c (fun x => match x with pat => k end))
  (at level 61, pat pattern, c at next level, right associativity) : outcome_scope.
Open Scope outcome_scope.

(** ** The engine (App.tsx, lines 82-126) *)

(** Lines 97-103: the object pushed for one occurrence.  The template is
    spread, then [id], [date], [createdAt] and [type] are set. *)
Definition instantiate (env : Env) (rule : RecurringRule) (date : string)
    (k : nat) : Expense :=
  let t := expenseTemplate rule in
  {| e_id := uuidv4 env k;
     e_amount := t_amount t;
     e_category := t_category t;
     e_paymentMode := t_paymentMode t;
     e_date := date;
     e_note := t_note t;
     e_createdAt := now env;
     e_type := match t_type t with Some ty => ty | None => expense end |}.

(** Lines 106-109: four tests in a row, each against one tag. *)
Definition advance (frequency : string) (nextDate : JSDate) : JSDate :=
  let nextDate := if (frequency =? "daily")%string then addDays nextDate 1 else nextDate in
  let nextDate := if (frequency =? "weekly")%string then addDays nextDate 7 else nextDate in
  let nextDate := if (frequency =? "monthly")%string then addDays nextDate 30 else nextDate in
  let nextDate := if (frequency =? "yearly")%string then addDays nextDate 365 else nextDate in
  nextDate.

(** Lines 94-110: the [while] loop of one rule.  The state is [nextDate],
    the array [ruleUpdates] and the number [k] of identifiers drawn so far;
    [today] is the [Date] of line 84. *)
Fixpoint whileDue (env : Env) (fuel : nat) (rule : RecurringRule)
    (today nextDate : JSDate) (ruleUpdates : list Expense) (k : nat)
    : outcome (JSDate * list Expense * nat) :=
  match fuel with
  | O => OutOfFuel
  | S fuel' =>
      if isBefore nextDate today || isToday env nextDate then
        if negb (active rule) then Returns (nextDate, ruleUpdates, k)
        else
          date <- ofOption (format env nextDate) ;;
          whileDue env fuel' rule today (advance (frequency rule) nextDate)
            (ruleUpdates ++ [instantiate env rule date k]) (S k)
      else Returns (nextDate, ruleUpdates, k)
  end.

(** What the callback of [map] (lines 89-118) leaves behind besides the
    rule it returns: the variables [newExpenses] and [hasUpdates] of the
    enclosing function, and the identifiers drawn. *)
Record Acc : Type := mkAcc {
  newExpenses : list Expense;
  hasUpdates : bool;
  drawn : nat
}.

(** Line 115: [{ ...rule, nextDueDate: ..., lastRun: ... }]. *)
Definition reschedule (rule : RecurringRule) (next last : string)
    : RecurringRule :=
  {| id := id rule;
     frequency := frequency rule;
     nextDueDate := next;
     expenseTemplate := expenseTemplate rule;
     active := active rule;
     lastRun := Some last |}.

(** Lines 90-117: the callback, for one rule. *)
Definition processRule (env : Env) (fuel : nat) (today : JSDate)
    (rule : RecurringRule) (acc : Acc) : outcome (RecurringRule * Acc) :=
  '(nextDate, ruleUpdates, k) <-
     whileDue env fuel rule today (newDate env (nextDueDate rule)) [] (drawn acc) ;;
  if (0 <? List.length ruleUpdates)%nat then
    next <- ofOption (format env nextDate) ;;
    last <- ofOption (format env today) ;;
    Returns (reschedule rule next last,
             {| newExpenses := newExpenses acc ++ ruleUpdates;
                hasUpdates := true;
                drawn := k |})
  else Returns (rule, {| newExpenses := newExpenses acc;
                         hasUpdates := hasUpdates acc;
                         drawn := k |}).

(** Line 89: [updatedRules.map(...)], left to right. *)
Fixpoint mapRules (env : Env) (fuel : nat) (today : JSDate)
    (rules : list RecurringRule) (acc : Acc)
    : outcome (list RecurringRule * Acc) :=
  match rules with
  | [] => Returns ([], acc)
  | rule :: rest =>
      '(rule', acc') <- processRule env fuel today rule acc ;;
      '(rest', acc'') <- mapRules env fuel today rest acc' ;;
      Returns (rule' :: rest', acc'')
  end.

(** Lines 84-118: what the specification calls [materialize]: from the
    rules and the clock to the updated rules, the new transactions and the
    flag.  [k] is the number of identifiers drawn before the run. *)
Definition materialize (env : Env) (fuel : nat) (rules : list RecurringRule)
    (k : nat) : outcome (list RecurringRule * Acc) :=
  let today := newDateNow env in
  mapRules env fuel today rules
    {| newExpenses := []; hasUpdates := false; drawn := k |}.

Definition updatedRules (r : list RecurringRule * Acc) : list RecurringRule := fst r.
Definition generated (r : list RecurringRule * Acc) : list Expense := newExpenses (snd r).
Definition generatedCount (r : list RecurringRule * Acc) : nat := List.length (generated r).

(** The state outside the function: the entry of [localStorage] under
    RECURRING_KEY (absent, or the text of the rules last saved;
    storageService, lines 86-93), the toast of the application, and the
    identifiers drawn. *)
Record Toast : Type := mkToast {
  message : string;
  success : bool
}.

Record World : Type := mkWorld {
  recurring : option (JSON.Text (list RecurringRule));
  toast : option Toast;
  uuids : nat
}.

Definition getRecurringRules (w : World) : list RecurringRule :=
  match recurring w with
  | Some data => JSON.parse (map jsonRule) data
  | None => []
  end.

Definition saveRecurringRules (rules : list RecurringRule) (w : World) : World :=
  {| recurring := Some (JSON.stringify rules);
     toast := toast w; uuids := uuids w |}.

Definition showToastMessage (msg : string) (w : World) : World :=
  {| recurring := recurring w;
     toast := Some {| message := msg; success := true |};
     uuids := uuids w |}.

Definition countMessage (n : nat) : string :=
  (Digits.decimal (Z.of_nat n) ++ " recurring expenses added")%string.

(** Lines 82-126, the whole function. *)
Definition processRecurringExpenses (env : Env) (fuel : nat)
    (currentExpenses : list Expense) (w : World)
    : outcome (list Expense * World) :=
  let rules := getRecurringRules w in
  '(updated, acc) <- materialize env fuel rules (uuids w) ;;
  let w := {| recurring := recurring w; toast := toast w; uuids := drawn acc |} in
  if hasUpdates acc then
    let w := saveRecurringRules updated w in
    let w := showToastMessage (countMessage (List.length (newExpenses acc))) w in
    Returns (newExpenses acc ++ currentExpenses, w)
  else Returns (currentExpenses, w).

(** ** Vocabulary of the statements *)

(** The test of the loop (line 94) at the date a rule carries. *)
Definition due (env : Env) (rule : RecurringRule) : bool :=
  isBefore (newDate env (nextDueDate rule)) (newDateNow env)
  || isToday env (newDate env (nextDueDate rule)).

(** [l] with [x] put in at position [n]. *)
Definition insertAt {A : Type} (n : nat) (x : A) (l : list A) : list A :=
  firstn n l ++ x :: skipn n l.

(** The fields of an instance that come from the template of [rule]. *)
Definition typeOrExpense (t : ExpenseTemplate) : TransactionType :=
  match t_type t with
  | Some ty => ty
  | None => expense
  end.

Definition fromTemplate (rule : RecurringRule) (e : Expense) : Prop :=
  e_amount e = t_amount (expenseTemplate rule)
  /\ e_category e = t_category (expenseTemplate rule)
  /\ e_paymentMode e = t_paymentMode (expenseTemplate rule)
  /\ e_note e = t_note (expenseTemplate rule)
  /\ e_type e = typeOrExpense (expenseTemplate rule).

(** Two instances that differ at most in [id], [date] and [createdAt]. *)
Definition samePayload (e1 e2 : Expense) : Prop :=
  e_amount e1 = e_amount e2
  /\ e_category e1 = e_category e2
  /\ e_paymentMode e1 = e_paymentMode e2
  /\ e_note e1 = e_note e2
  /\ e_type e1 = e_type e2.

(** The fields of a rule that the engine never writes. *)
Definition sameIdentity (rule updated : RecurringRule) : Prop :=
  id updated = id rule
  /\ frequency updated = frequency rule
  /\ active updated = active rule
  /\ expenseTemplate updated = expenseTemplate rule.





(** The instances of [n] occurrences of a rule, the first on day number
    [day], each [step] days after the one before, with the identifiers
    from the [k]-th on. *)
Fixpoint occurrences (env : Env) (rule : RecurringRule) (n : nat)
    (day step : Z) (k : nat) : list Expense :=
  match n with
  | O => []
  | S n' =>
      instantiate env rule (formatDay day) k
      :: occurrences env rule n' (day + step) step (S k)
  end.

(** The number of the days [day], [day + step], [day + 2 step], ... that
    are not after [today]. *)
Definition countDue (today day step : Z) : nat :=
  if day <=? today then S (Z.to_nat ((today - day) / step)) else O.

(** The number of the local day in which UTC midnight of day 0 falls: 0 in
    a zone on or ahead of UTC, -1 in a zone behind it. *)
Definition dayShift (env : Env) : Z := localDay env 0.

(** [P] holds of the [n] integers from [z] on. *)
Fixpoint checkFrom (n : nat) (z : Z) (P : Z -> bool) : bool :=
  match n with
  | O => true
  | S n' => P z && checkFrom n' (z + 1) P
  end.

(** [addLeadingZeros n width] is [width] characters that read back as
    [n]. *)
Definition fourDigitsOK (n : Z) : bool :=
  match Digits.addLeadingZeros n 4 with
  | String a (String b (String c (String d EmptyString))) =>
      match Digits.readDigits
              (String a (String b (String c (String d EmptyString)))) 0 with
      | Some v => v =? n
      | None => false
      end
  | _ => false
  end.

Definition twoDigitsOK (n : Z) : bool :=
  match Digits.addLeadingZeros n 2 with
  | String a (String b EmptyString) =>
      match Digits.readDigits (String a (String b EmptyString)) 0 with
      | Some v => v =? n
      | None => false
      end
  | _ => false
  end.

(** Day number of 9600-03-01, the first day of a 400-year era; on every
    day from 1970 up to it the year has four digits. *)
Definition farDay : Z := 2786860.

(** The number of days by which lines 106-109 move the date. *)
Definition stepDays (frequency : string) : Z :=
  if (frequency =? "daily")%string then 1
  else if (frequency =? "weekly")%string then 7
  else if (frequency =? "monthly")%string then 30
  else if (frequency =? "yearly")%string then 365
  else 0.

(** Fuel that is enough for the loop of one rule. *)
Definition fuelFor (env : Env) (rule : RecurringRule) : nat :=
  match newDate env (nextDueDate rule) with
  | Some t => S (Z.to_nat ((now env + msPerDay - t) / msPerDay + 1))
  | None => 1
  end.

Definition fuelForAll (env : Env) (rules : list RecurringRule) : nat :=
  fold_right (fun rule n => Nat.max (fuelFor env rule) n) 1%nat rules.

(** ** Sample data

    Environments, rules and stores at which the statements below are
    evaluated.  Day 19875 is 2024-06-01. *)

Definition sampleIds (n : nat) : string :=
  ("id-" ++ Digits.decimal (Z.of_nat n))%string.

Definition hour : Z := 3600000.

(** The sample hosts answer the Invalid Date outside the date-only form.
    Of the strings the samples hold only the empty one is outside it, and
    [newDate] does not ask the host about that one. *)
Definition noOtherForm (s : string) : JSDate := None.

(** Noon UTC on 2024-06-03 in a zone on UTC. *)
Definition envUTC : Env :=
  {| tz := 0; now := 19877 * msPerDay + 12 * hour; uuidv4 := sampleIds;
     otherDate := noOtherForm |}.

(** 17:00 UTC on 2024-06-01 in a zone five hours behind UTC: local noon of
    2024-06-01. *)
Definition envWest : Env :=
  {| tz := - (5 * hour); now := 19875 * msPerDay + 17 * hour;
     uuidv4 := sampleIds;
     otherDate := noOtherForm |}.

Definition foodTemplate : ExpenseTemplate :=
  {| t_amount := Num 10; t_category := Food; t_paymentMode := Cash;
     t_note := None; t_type := Some expense |}.

Definition ruleOf (frequency nextDueDate : string) (active : bool)
    : RecurringRule :=
  {| id := "rule-1"; frequency := frequency; nextDueDate := nextDueDate;
     expenseTemplate := foodTemplate; active := active; lastRun := None |}.

Definition dailyRule : RecurringRule := ruleOf "daily" "2024-06-01" true.

Definition frozenRule : RecurringRule := ruleOf "daily" "1999-01-01" false.

Definition undatedRule : RecurringRule := ruleOf "daily" "" true.

Definition hourlyRule : RecurringRule := ruleOf "hourly" "2024-06-01" true.

(** A rule stored without the [type] field in its template. *)
Definition untypedRule : RecurringRule :=
  {| id := "rule-0"; frequency := "daily"; nextDueDate := "2024-06-03";
     expenseTemplate :=
       {| t_amount := Num 10; t_category := Food; t_paymentMode := Cash;
          t_note := None; t_type := None |};
     active := true; lastRun := None |}.



(** 17:00 UTC on 2024-03-01 in a zone five hours behind UTC: local noon of
    2024-03-01 (day 19783). *)
Definition envWestMarch : Env :=
  {| tz := - (5 * hour); now := 19783 * msPerDay + 17 * hour;
     uuidv4 := sampleIds;
     otherDate := noOtherForm |}.

Definition monthlyRule : RecurringRule := ruleOf "monthly" "2024-01-31" true.

Definition weeklyRule : RecurringRule := ruleOf "weekly" "2024-05-25" true.

Definition tomorrowRule : RecurringRule := ruleOf "daily" "2024-06-02" true.


(** ** The storage service (services/storageService)

    [localStorage] holds JSON text under three keys and the string 'true'
    under SESSION_KEY.  Every read goes through [JSON.parse] and every
    write through [JSON.stringify], as in the source. *)

(** An optional property of an object in memory: not there, there with the
    value [undefined], or there with a value. *)
Inductive Field (A : Type) : Type :=
| Absent
| Undefined
| Value (a : A).
Arguments Absent {A}.
Arguments Undefined {A}.
Arguments Value {A} a.

(** Reading the property: [undefined] in the first two cases. *)
Definition readField {A : Type} (f : Field A) : option A :=
  match f with
  | Value a => Some a
  | _ => None
  end.

(** The property in [{ ...existing, ...update }]. *)
Definition spreadField {A : Type} (existing update : Field A) : Field A :=
  match update with
  | Absent => existing
  | _ => update
  end.

(** The property after [JSON.stringify] and [JSON.parse]: one whose value
    is [undefined] is not written. *)
Definition jsonField {A : Type} (f : Field A) : Field A :=
  match f with
  | Undefined => Absent
  | _ => f
  end.

(** The same for a property that holds a number. *)
Definition jsonNumberField (f : Field JSNumber) : Field JSNumber :=
  match f with
  | Value n => Value (jsonNumber n)
  | _ => Absent
  end.

(** The interface [User] of the types module. *)
Record User : Type := mkUser {
  u_email : string;
  u_password : Field string;
  u_name : string;
  u_age : Field JSNumber;
  u_profession : Field string;
  u_profilePic : Field string;
  u_monthlyBudget : Field JSNumber;
  u_currency : Field string;
  u_defaultPaymentMode : Field PaymentMode;
  u_darkMode : Field bool
}.

Definition jsonUser (u : User) : User :=
  {| u_email := u_email u;
     u_password := jsonField (u_password u);
     u_name := u_name u;
     u_age := jsonNumberField (u_age u);
     u_profession := jsonField (u_profession u);
     u_profilePic := jsonField (u_profilePic u);
     u_monthlyBudget := jsonNumberField (u_monthlyBudget u);
     u_currency := jsonField (u_currency u);
     u_defaultPaymentMode := jsonField (u_defaultPaymentMode u);
     u_darkMode := jsonField (u_darkMode u) |}.

(** [{ ...existing, ...user }], where [existing] may be [null]. *)
Definition spreadUser (existing : option User) (user : User) : User :=
  match existing with
  | None => user
  | Some e =>
      {| u_email := u_email user;
         u_password := spreadField (u_password e) (u_password user);
         u_name := u_name user;
         u_age := spreadField (u_age e) (u_age user);
         u_profession := spreadField (u_profession e) (u_profession user);
         u_profilePic := spreadField (u_profilePic e) (u_profilePic user);
         u_monthlyBudget :=
           spreadField (u_monthlyBudget e) (u_monthlyBudget user);
         u_currency := spreadField (u_currency e) (u_currency user);
         u_defaultPaymentMode :=
           spreadField (u_defaultPaymentMode e) (u_defaultPaymentMode user);
         u_darkMode := spreadField (u_darkMode e) (u_darkMode user) |}
  end.

(** The four keys: EXPENSE_KEY, USER_KEY, SESSION_KEY, RECURRING_KEY. *)
Record LocalStorage : Type := mkStorage {
  expensesItem : option (JSON.Text (list Expense));
  userItem : option (JSON.Text User);
  sessionItem : option string;
  recurringItem : option (JSON.Text (list RecurringRule))
}.

Definition emptyStorage : LocalStorage :=
  {| expensesItem := None; userItem := None; sessionItem := None;
     recurringItem := None |}.

Definition optionEqb (a b : option string) : bool :=
  match a, b with
  | Some x, Some y => (x =? y)%string
  | None, None => true
  | _, _ => false
  end.

Module StorageService.

(** [localStorage.setItem] and [localStorage.removeItem] on each key. *)
Definition setExpensesItem (v : option (JSON.Text (list Expense)))
    (ls : LocalStorage) : LocalStorage :=
  {| expensesItem := v; userItem := userItem ls;
     sessionItem := sessionItem ls; recurringItem := recurringItem ls |}.

Definition setUserItem (v : option (JSON.Text User)) (ls : LocalStorage)
    : LocalStorage :=
  {| expensesItem := expensesItem ls; userItem := v;
     sessionItem := sessionItem ls; recurringItem := recurringItem ls |}.

Definition setSessionItem (v : option string) (ls : LocalStorage)
    : LocalStorage :=
  {| expensesItem := expensesItem ls; userItem := userItem ls;
     sessionItem := v; recurringItem := recurringItem ls |}.

Definition setRecurringItem (v : option (JSON.Text (list RecurringRule)))
    (ls : LocalStorage) : LocalStorage :=
  {| expensesItem := expensesItem ls; userItem := userItem ls;
     sessionItem := sessionItem ls; recurringItem := v |}.

(** Lines 12-14: [!!localStorage.getItem(SESSION_KEY)]; the empty string
    is falsy. *)
Definition isAuthenticated (ls : LocalStorage) : bool :=
  match sessionItem ls with
  | Some s => negb (s =? "")%string
  | None => false
  end.

(** Lines 17-20: [data ? JSON.parse(data) : null]. *)
Definition getUser (ls : LocalStorage) : option User :=
  match userItem ls with
  | Some data => Some (JSON.parse jsonUser data)
  | None => None
  end.

(** Lines 23-28. *)
Definition setUser (user : User) (ls : LocalStorage) : LocalStorage :=
  let existing := getUser ls in
  let updated := spreadUser existing user in
  setUserItem (Some (JSON.stringify updated)) ls.

(** Lines 31-41. *)
Definition signup (user : User) (ls : LocalStorage) : bool * LocalStorage :=
  match getUser ls with
  | Some _ => (false, ls)
  | None =>
      (true, setSessionItem (Some "true"%string)
               (setUserItem (Some (JSON.stringify user)) ls))
  end.

(** Lines 44-54; [password] is an optional argument. *)
Definition login (email : string) (password : option string)
    (ls : LocalStorage) : bool * LocalStorage :=
  match getUser ls with
  | None => (false, ls)
  | Some storedUser =>
      if (u_email storedUser =? email)%string
         && optionEqb (readField (u_password storedUser)) password
      then (true, setSessionItem (Some "true"%string) ls)
      else (false, ls)
  end.

(** Lines 56-59. *)
Definition logout (ls : LocalStorage) : LocalStorage :=
  setSessionItem None ls.

(** Lines 62-65: [data ? JSON.parse(data) : []]. *)
Definition getExpenses (ls : LocalStorage) : list Expense :=
  match expensesItem ls with
  | Some data => JSON.parse (map jsonExpense) data
  | None => []
  end.

(** Lines 67-71. *)
Definition addExpense (expense : Expense) (ls : LocalStorage) : LocalStorage :=
  let expenses := getExpenses ls in
  let updated := expense :: expenses in
  setExpensesItem (Some (JSON.stringify updated)) ls.

(** Lines 73-77. *)
Definition updateExpense (updatedExpense : Expense) (ls : LocalStorage)
    : LocalStorage :=
  let expenses := getExpenses ls in
  let updated :=
    map (fun e => if (e_id e =? e_id updatedExpense)%string
                  then updatedExpense else e)
      expenses in
  setExpensesItem (Some (JSON.stringify updated)) ls.

(** Lines 79-83. *)
Definition deleteExpense (ident : string) (ls : LocalStorage) : LocalStorage :=
  let expenses := getExpenses ls in
  let updated :=
    filter (fun e => negb (e_id e =? ident)%string) expenses in
  setExpensesItem (Some (JSON.stringify updated)) ls.

(** Lines 86-89: [data ? JSON.parse(data) : []]. *)
Definition getRecurringRules (ls : LocalStorage) : list RecurringRule :=
  match recurringItem ls with
  | Some data => JSON.parse (map jsonRule) data
  | None => []
  end.

(** Lines 91-93. *)
Definition saveRecurringRules (rules : list RecurringRule)
    (ls : LocalStorage) : LocalStorage :=
  setRecurringItem (Some (JSON.stringify rules)) ls.

(** Lines 95-100: the four keys are removed. *)
Definition clearAllData (ls : LocalStorage) : LocalStorage := emptyStorage.

End StorageService.

(** ** The component [App] (App.tsx): its state and its handlers

    The state of the component that the handlers below read or write,
    together with [localStorage] and the number of identifiers drawn. *)
Record App : Type := mkApp {
  a_storage : LocalStorage;
  a_user : option User;
  a_expenses : list Expense;
  a_editingExpense : option Expense;
  a_showAddModal : bool;
  a_addModalType : TransactionType;
  a_toast : option Toast;
  a_loading : bool;
  a_uuids : nat
}.

Module AppState.

Definition setStorage (v : LocalStorage) (a : App) : App :=
  mkApp v (a_user a) (a_expenses a) (a_editingExpense a) (a_showAddModal a)
    (a_addModalType a) (a_toast a) (a_loading a) (a_uuids a).

Definition setUser (v : option User) (a : App) : App :=
  mkApp (a_storage a) v (a_expenses a) (a_editingExpense a)
    (a_showAddModal a) (a_addModalType a) (a_toast a) (a_loading a)
    (a_uuids a).

Definition setExpenses (v : list Expense) (a : App) : App :=
  mkApp (a_storage a) (a_user a) v (a_editingExpense a) (a_showAddModal a)
    (a_addModalType a) (a_toast a) (a_loading a) (a_uuids a).

Definition setEditingExpense (v : option Expense) (a : App) : App :=
  mkApp (a_storage a) (a_user a) (a_expenses a) v (a_showAddModal a)
    (a_addModalType a) (a_toast a) (a_loading a) (a_uuids a).

Definition setShowAddModal (v : bool) (a : App) : App :=
  mkApp (a_storage a) (a_user a) (a_expenses a) (a_editingExpense a) v
    (a_addModalType a) (a_toast a) (a_loading a) (a_uuids a).

Definition setAddModalType (v : TransactionType) (a : App) : App :=
  mkApp (a_storage a) (a_user a) (a_expenses a) (a_editingExpense a)
    (a_showAddModal a) v (a_toast a) (a_loading a) (a_uuids a).

Definition setToast (v : option Toast) (a : App) : App :=
  mkApp (a_storage a) (a_user a) (a_expenses a) (a_editingExpense a)
    (a_showAddModal a) (a_addModalType a) v (a_loading a) (a_uuids a).

Definition setLoading (v : bool) (a : App) : App :=
  mkApp (a_storage a) (a_user a) (a_expenses a) (a_editingExpense a)
    (a_showAddModal a) (a_addModalType a) (a_toast a) v (a_uuids a).

Definition setUuids (v : nat) (a : App) : App :=
  mkApp (a_storage a) (a_user a) (a_expenses a) (a_editingExpense a)
    (a_showAddModal a) (a_addModalType a) (a_toast a) (a_loading a) v.

End AppState.

(** Lines 18-29: the state of the component when it is first rendered,
    over the storage as the page finds it; [k] identifiers have been drawn
    so far. *)
Definition initialApp (ls : LocalStorage) (k : nat) : App :=
  {| a_storage := ls;
     a_user := None;
     a_expenses := [];
     a_editingExpense := None;
     a_showAddModal := false;
     a_addModalType := expense;
     a_toast := None;
     a_loading := true;
     a_uuids := k |}.

(** What [processRecurringExpenses] sees of the component, and the
    component after it has run. *)
Definition worldOf (a : App) : World :=
  {| recurring := recurringItem (a_storage a);
     toast := a_toast a;
     uuids := a_uuids a |}.

Definition putWorld (w : World) (a : App) : App :=
  AppState.setUuids (uuids w)
    (AppState.setToast (toast w)
       (AppState.setStorage
          (StorageService.setRecurringItem (recurring w) (a_storage a)) a)).

(** Lines 71-73; the second argument defaults to ['success']. *)
Definition appToast (msg : string) (a : App) : App :=
  AppState.setToast (Some {| message := msg; success := true |}) a.

(** Lines 34-38: the stored user is taken when a session is open. *)
Definition loadUser (a : App) : App :=
  if StorageService.isAuthenticated (a_storage a) then
    match StorageService.getUser (a_storage a) with
    | Some loadedUser => AppState.setUser (Some loadedUser) a
    | None => a
    end
  else a.

(** Lines 33-52: the effect run when the component is mounted. *)
Definition mount (env : Env) (fuel : nat) (a : App) : outcome App :=
  let a := loadUser a in
  let loadedExpenses := StorageService.getExpenses (a_storage a) in
  let a := AppState.setExpenses loadedExpenses a in
  '(processed, w) <-
     processRecurringExpenses env fuel loadedExpenses (worldOf a) ;;
  let a := putWorld w a in
  let a :=
    if (List.length loadedExpenses <? List.length processed)%nat then
      AppState.setStorage
        (StorageService.setExpensesItem (Some (JSON.stringify processed))
           (a_storage a))
        (AppState.setExpenses processed a)
    else a in
  Returns (AppState.setLoading false a).

(** Lines 128-136. *)
Definition handleLogin (a : App) : App :=
  AppState.setUser (StorageService.getUser (a_storage a)) a.

Definition handleLogout (a : App) : App :=
  AppState.setUser None
    (AppState.setStorage (StorageService.logout (a_storage a)) a).

(** Lines 138-149. *)
Definition saveExpense (saved : Expense) (a : App) : App :=
  let a :=
    match a_editingExpense a with
    | Some _ =>
        let a := AppState.setStorage
                   (StorageService.updateExpense saved (a_storage a)) a in
        let a := AppState.setExpenses
                   (map (fun e => if (e_id e =? e_id saved)%string
                                  then saved else e)
                      (a_expenses a)) a in
        appToast "Transaction updated" a
    | None =>
        let a := AppState.setStorage
                   (StorageService.addExpense saved (a_storage a)) a in
        let a := AppState.setExpenses (saved :: a_expenses a) a in
        appToast
          (match e_type saved with
           | income => "Income"
           | expense => "Expense"
           end ++ " added")%string
          a
    end in
  AppState.setEditingExpense None a.

(** Lines 151-154. *)
Definition saveRecurringRule (rule : RecurringRule) (a : App) : App :=
  let rules := StorageService.getRecurringRules (a_storage a) in
  AppState.setStorage
    (StorageService.saveRecurringRules (rules ++ [rule]) (a_storage a)) a.

(** Lines 156-162; [confirmed] is the answer to [confirm(...)]. *)
Definition deleteExpense (ident : string) (confirmed : bool) (a : App) : App :=
  if confirmed then
    let a := AppState.setStorage
               (StorageService.deleteExpense ident (a_storage a)) a in
    let a := AppState.setExpenses
               (filter (fun e => negb (e_id e =? ident)%string)
                  (a_expenses a)) a in
    appToast "Transaction deleted" a
  else a.

(** Lines 164-171. *)
Definition handleClearData (confirmed : bool) (a : App) : App :=
  if confirmed then
    let a := AppState.setStorage
               (StorageService.clearAllData (a_storage a)) a in
    let a := AppState.setExpenses [] a in
    let a := AppState.setUser None a in
    appToast "All data cleared" a
  else a.

(** Lines 173-183. *)
Definition openEdit (expense : Expense) (a : App) : App :=
  AppState.setShowAddModal true
    (AppState.setAddModalType (e_type expense)
       (AppState.setEditingExpense (Some expense) a)).

Definition openAdd (type : TransactionType) (a : App) : App :=
  AppState.setShowAddModal true
    (AppState.setAddModalType type
       (AppState.setEditingExpense None a)).

(** Line 389: the [onClose] given to the form. *)
Definition closeModal (a : App) : App :=
  AppState.setEditingExpense None (AppState.setShowAddModal false a).

(** The constant [CURRENCIES] of the types module, as (code, symbol). *)
Definition CURRENCIES : list (string * string) :=
  [("INR", "₹"); ("USD", "$"); ("EUR", "€"); ("GBP", "£"); ("JPY", "¥")]%string.

Definition orElse (s default : string) : string :=
  if (s =? "")%string then default else s.

(** Lines 75-78:
    [CURRENCIES.find(c => c.code === code)?.symbol || '₹'] with
    [code = user?.currency || 'INR']. *)
Definition getCurrencySymbol (a : App) : string :=
  let code :=
    match a_user a with
    | Some u =>
        match readField (u_currency u) with
        | Some c => orElse c "INR"
        | None => "INR"%string
        end
    | None => "INR"%string
    end in
  match find (fun c => (fst c =? code)%string) CURRENCIES with
  | Some c => orElse (snd c) "₹"
  | None => "₹"%string
  end.

(** ** The form [AddExpense] (components/Transactions.tsx, lines 360-427)

    The state of the form, and what the engine of the browser supplies:
    [Number(s)] being NaN, and [parseFloat(s)]. *)
Record Form : Type := mkForm {
  f_type : TransactionType;
  f_amount : string;
  f_category : Category;
  f_paymentMode : PaymentMode;
  f_date : string;
  f_note : string;
  f_isRecurring : bool;
  f_frequency : string
}.

Record Numeric : Type := mkNumeric {
  numberIsNaN : string -> bool;     (* isNaN(Number(s)) *)
  parseFloat : string -> float      (* parseFloat(s) *)
}.

(** Lines 389-427: [handleSubmit], with [onSave], [onSaveRecurring] and
    [onClose] as [App] passes them (lines 389-391) and [existingExpense]
    the expense being edited. *)
Definition handleSubmit (js : Numeric) (env : Env) (f : Form) (a : App)
    : App :=
  if (f_amount f =? "")%string || numberIsNaN js (f_amount f) then a
  else
    let finalAmount := Num (parseFloat js (f_amount f)) in
    let existingExpense := a_editingExpense a in
    let '(ident, createdAt, a) :=
      match existingExpense with
      | Some e => (e_id e, e_createdAt e, a)
      | None =>
          (uuidv4 env (a_uuids a), now env,
           AppState.setUuids (S (a_uuids a)) a)
      end in
    let expense :=
      {| e_id := ident;
         e_amount := finalAmount;
         e_category := f_category f;
         e_paymentMode := f_paymentMode f;
         e_date := f_date f;
         e_note := Some (f_note f);
         e_createdAt := createdAt;
         e_type := f_type f |} in
    let a := saveExpense expense a in
    let a :=
      match existingExpense with
      | None =>
          if f_isRecurring f then
            saveRecurringRule
              {| id := uuidv4 env (a_uuids a);
                 frequency := f_frequency f;
                 nextDueDate := f_date f;
                 expenseTemplate :=
                   {| t_amount := finalAmount;
                      t_category := f_category f;
                      t_paymentMode := e_paymentMode expense;
                      t_note := Some (f_note f);
                      t_type := Some (f_type f) |};
                 active := true;
                 lastRun := None |}
              (AppState.setUuids (S (a_uuids a)) a)
          else a
      | Some _ => a
      end in
    closeModal a.



(** The expenses shown are the expenses stored. *)
Definition inSync (a : App) : Prop :=
  a_expenses a = StorageService.getExpenses (a_storage a).

(** What is stored is the image of what is shown: the expenses read from
    the store are the JSON images of the expenses of the state, one for
    one and in the same order. *)
Definition storedImage (a : App) : Prop :=
  StorageService.getExpenses (a_storage a) = map jsonExpense (a_expenses a).

(** The calls a user of the component can cause, after it is mounted. *)
Inductive Action : Type :=
| DoLogin
| DoLogout
| DoSaveExpense (expense : Expense)
| DoSaveRecurringRule (rule : RecurringRule)
| DoDeleteExpense (ident : string) (confirmed : bool)
| DoClearData (confirmed : bool)
| DoOpenEdit (expense : Expense)
| DoOpenAdd (type : TransactionType)
| DoCloseModal
| DoSubmit (f : Form).

Definition act (js : Numeric) (env : Env) (x : Action) (a : App) : App :=
  match x with
  | DoLogin => handleLogin a
  | DoLogout => handleLogout a
  | DoSaveExpense e => saveExpense e a
  | DoSaveRecurringRule r => saveRecurringRule r a
  | DoDeleteExpense i c => deleteExpense i c a
  | DoClearData c => handleClearData c a
  | DoOpenEdit e => openEdit e a
  | DoOpenAdd t => openAdd t a
  | DoCloseModal => closeModal a
  | DoSubmit f => handleSubmit js env f a
  end.

Definition actAll (js : Numeric) (env : Env) (xs : list Action) (a : App)
    : App :=
  fold_left (fun a x => act js env x a) xs a.


(** ** Sample data for the storage service and the component *)

Definition sampleUser : User :=
  {| u_email := "a@b.c"; u_password := Value "secret"%string;
     u_name := "Asha"; u_age := Value (Num 30);
     u_profession := Value "Engineer"%string; u_profilePic := Absent;
     u_monthlyBudget := Absent; u_currency := Value "USD"%string;
     u_defaultPaymentMode := Absent; u_darkMode := Absent |}.


Definition expenseOf (ident date : string) : Expense :=
  {| e_id := ident; e_amount := Num 10; e_category := Food;
     e_paymentMode := Cash; e_date := date; e_note := Some ""%string;
     e_createdAt := 0; e_type := expense |}.

Definition lunch : Expense := expenseOf "e-1" "2024-06-01".
Definition dinner : Expense := expenseOf "e-2" "2024-06-02".

Definition sampleStorage : LocalStorage :=
  {| expensesItem := Some (JSON.stringify [dinner]);
     userItem := Some (JSON.stringify sampleUser);
     sessionItem := Some "true"%string; recurringItem := None |}.

Definition sampleApp : App :=
  {| a_storage := sampleStorage; a_user := Some (jsonUser sampleUser);
     a_expenses := [dinner]; a_editingExpense := None;
     a_showAddModal := true; a_addModalType := expense; a_toast := None;
     a_loading := false; a_uuids := 0 |}.

(** What the browser answers for the two amounts the samples enter, "10"
    and "-0": neither is NaN, and [parseFloat] gives 10 and the negative
    zero. *)
Definition sampleNumeric : Numeric :=
  {| numberIsNaN := fun _ => false;
     parseFloat := fun s => if (s =? "-0")%string then neg_zero
                            else 10%float |}.

(** The form filled in for a daily recurring expense dated 2024-06-03. *)
Definition sampleForm : Form :=
  {| f_type := expense; f_amount := "10"; f_category := Food;
     f_paymentMode := Cash; f_date := "2024-06-03"; f_note := "";
     f_isRecurring := true; f_frequency := "daily" |}.

(** The same form with the amount "-0", not recurring. *)
Definition zeroForm : Form :=
  {| f_type := expense; f_amount := "-0"; f_category := Food;
     f_paymentMode := Cash; f_date := "2024-06-03"; f_note := "";
     f_isRecurring := false; f_frequency := "monthly" |}.

(** A store that holds a due rule and an inactive one besides the expense
    and the user, and the component over it. *)
Definition ruledStorage : LocalStorage :=
  {| expensesItem := Some (JSON.stringify [dinner]);
     userItem := Some (JSON.stringify sampleUser);
     sessionItem := Some "true"%string;
     recurringItem := Some (JSON.stringify [dailyRule; frozenRule]) |}.

Definition ruledApp : App :=
  {| a_storage := ruledStorage; a_user := Some (jsonUser sampleUser);
     a_expenses := [dinner]; a_editingExpense := None;
     a_showAddModal := false; a_addModalType := expense; a_toast := None;
     a_loading := false; a_uuids := 0 |}.

(** ** The calendar and the dates, on examples *)

Example calendar_examples :
  daysFromCivil 1970 1 1 = 0
  /\ daysFromCivil 2024 6 1 = 19875
  /\ civilFromDays 19875 = (2024, 6, 1)
  /\ civilFromDays 19782 = (2024, 2, 29)
  /\ civilFromDays (-1) = (1969, 12, 31)
  /\ civilFromDays farDay = (9600, 3, 1).
Proof. repeat split. Qed.

Example date_examples :
  newDate envUTC "2024-06-01" = Some (19875 * msPerDay)
  /\ newDate envUTC "" = None
  /\ newDate envUTC "2024-13-01" = otherDate envUTC "2024-13-01"
  /\ newDate envUTC "2024-6-1" = otherDate envUTC "2024-6-1"
  /\ newDate envUTC "2024-02-30" = newDate envUTC "2024-03-01"
  /\ format envUTC (newDate envUTC "2024-06-01") = Some "2024-06-01"%string
  /\ format envWest (newDate envWest "2024-06-01")
     = Some "2024-05-31"%string
  /\ addDays (newDate envUTC "2024-01-31") 30 = newDate envUTC "2024-03-01".
Proof. repeat split. Qed.

(** ** Basic facts about the loop and the map *)

Lemma bind_Returns_inv {A B : Type} (c : outcome A) (k : A -> outcome B) (b : B) :
  bind c k = Returns b -> exists a, c = Returns a /\ k a = Returns b.
Proof.
  destruct c as [a| |]; simpl; intros H; try discriminate.
  exists a; split; [reflexivity | exact H].
Qed.

(** From [bind c k = Returns b] in [H]: the value [c] returned, named by
    the pattern, with its equation; [H] is left about the continuation. *)
Tactic Notation "bind_inv" hyp(H) "as"
    simple_intropattern(p) simple_intropattern(E) :=
  apply bind_Returns_inv in H; destruct H as (p & E & H).

Lemma Acc_eta (acc : Acc) :
  {| newExpenses := newExpenses acc; hasUpdates := hasUpdates acc;
     drawn := drawn acc |} = acc.
Proof. destruct acc; reflexivity. Qed.

Lemma isBefore_Invalid (d : JSDate) : isBefore None d = false.
Proof. reflexivity. Qed.

Lemma isToday_Invalid (env : Env) : isToday env None = false.
Proof. reflexivity. Qed.

Lemma whileDue_S env fuel rule today nextDate ruleUpdates k :
  whileDue env (S fuel) rule today nextDate ruleUpdates k
  = if isBefore nextDate today || isToday env nextDate then
      if negb (active rule) then Returns (nextDate, ruleUpdates, k)
      else
        date <- ofOption (format env nextDate) ;;
        whileDue env fuel rule today (advance (frequency rule) nextDate)
          (ruleUpdates ++ [instantiate env rule date k]) (S k)
    else Returns (nextDate, ruleUpdates, k).
Proof. reflexivity. Qed.

(** The loop leaves at once when its test fails. *)
Lemma whileDue_not_due env fuel rule today nextDate ruleUpdates k :
  isBefore nextDate today || isToday env nextDate = false ->
  whileDue env (S fuel) rule today nextDate ruleUpdates k
  = Returns (nextDate, ruleUpdates, k).
Proof. intros H; rewrite whileDue_S, H; reflexivity. Qed.

(** The [break] of line 95. *)
Lemma whileDue_inactive env fuel rule today nextDate ruleUpdates k :
  active rule = false ->
  whileDue env (S fuel) rule today nextDate ruleUpdates k
  = Returns (nextDate, ruleUpdates, k).
Proof.
  intros H; rewrite whileDue_S, H; simpl.
  destruct (isBefore nextDate today || isToday env nextDate); reflexivity.
Qed.

(** One turn of the loop for an active rule whose date is valid and due. *)
Lemma whileDue_turn env fuel rule today t ruleUpdates k :
  isBefore (Some t) today || isToday env (Some t) = true ->
  active rule = true ->
  whileDue env (S fuel) rule today (Some t) ruleUpdates k
  = whileDue env fuel rule today (advance (frequency rule) (Some t))
      (ruleUpdates ++ [instantiate env rule (formatTime env t) k]) (S k).
Proof. intros H Ha; rewrite whileDue_S, H, Ha; reflexivity. Qed.

(** [format] is only reached with a valid date: the loop does not throw. *)
Lemma whileDue_no_throw env fuel rule today nextDate ruleUpdates k :
  whileDue env fuel rule today nextDate ruleUpdates k <> Throws.
Proof.
  revert nextDate ruleUpdates k.
  induction fuel as [|fuel IH]; intros nextDate ruleUpdates k.
  - discriminate.
  - rewrite whileDue_S.
    destruct (isBefore nextDate today || isToday env nextDate) eqn:Hc;
      [|discriminate].
    destruct (negb (active rule)); [discriminate|].
    destruct nextDate as [t|]; [simpl; apply IH|].
    rewrite isBefore_Invalid, isToday_Invalid in Hc. discriminate.
Qed.

(** More fuel does not change what the loop returns. *)
Lemma whileDue_fuel_mono env fuel fuel' rule today nextDate ruleUpdates k r :
  whileDue env fuel rule today nextDate ruleUpdates k = Returns r ->
  (fuel <= fuel')%nat ->
  whileDue env fuel' rule today nextDate ruleUpdates k = Returns r.
Proof.
  revert fuel' nextDate ruleUpdates k.
  induction fuel as [|fuel IH]; intros fuel' nextDate ruleUpdates k H Hle;
    [discriminate|].
  destruct fuel' as [|fuel']; [lia|].
  rewrite whileDue_S in H |- *.
  destruct (isBefore nextDate today || isToday env nextDate); [|exact H].
  destruct (negb (active rule)); [exact H|].
  destruct (format env nextDate) as [date|]; simpl in *; [|discriminate].
  apply IH; [exact H | lia].
Qed.

(** The loop only appends to [ruleUpdates], one instance for each
    identifier drawn, each taken from the template of the rule. *)
Lemma whileDue_appends env fuel rule today nextDate ruleUpdates k nextDate' ruleUpdates' k' :
  whileDue env fuel rule today nextDate ruleUpdates k
  = Returns (nextDate', ruleUpdates', k') ->
  exists fresh,
    ruleUpdates' = ruleUpdates ++ fresh
    /\ k' = (k + List.length fresh)%nat
    /\ Forall (fromTemplate rule) fresh.
Proof.
  revert nextDate ruleUpdates k.
  induction fuel as [|fuel IH]; intros nextDate ruleUpdates k H;
    [discriminate|].
  rewrite whileDue_S in H.
  assert (Hstop : Returns (nextDate, ruleUpdates, k)
                  = Returns (nextDate', ruleUpdates', k') ->
                  exists fresh, ruleUpdates' = ruleUpdates ++ fresh
                    /\ k' = (k + List.length fresh)%nat
                    /\ Forall (fromTemplate rule) fresh).
  { intros E; injection E as -> -> ->. exists [].
    rewrite app_nil_r; simpl; repeat split; [lia | constructor]. }
  destruct (isBefore nextDate today || isToday env nextDate); [|auto].
  destruct (negb (active rule)); [auto|].
  destruct (format env nextDate) as [date|]; simpl in H; [|discriminate].
  apply IH in H. destruct H as (fresh & -> & -> & Hall).
  exists (instantiate env rule date k :: fresh).
  rewrite <- app_assoc; simpl; repeat split.
  - lia.
  - constructor; [|exact Hall]. unfold fromTemplate, typeOrExpense; simpl; auto.
Qed.

(** *** The date of the loop *)

Lemma advance_stepDays frequency t :
  advance frequency (Some t) = Some (t + stepDays frequency * msPerDay).
Proof.
  unfold advance, stepDays.
  destruct (String.eqb_spec frequency "daily") as [->|_];
    [simpl; reflexivity|].
  destruct (String.eqb_spec frequency "weekly") as [->|_];
    [simpl; reflexivity|].
  destruct (String.eqb_spec frequency "monthly") as [->|_];
    [simpl; reflexivity|].
  destruct (String.eqb_spec frequency "yearly") as [->|_];
    [simpl; reflexivity|].
  simpl. f_equal. lia.
Qed.

Lemma stepDays_frequency frequency :
  isFrequency frequency = true -> 1 <= stepDays frequency.
Proof.
  unfold isFrequency, stepDays.
  destruct (frequency =? "daily")%string; [lia|].
  destruct (frequency =? "weekly")%string; [lia|].
  destruct (frequency =? "monthly")%string; [lia|].
  destruct (frequency =? "yearly")%string; [lia|].
  discriminate.
Qed.

Lemma stepDays_unknown frequency :
  isFrequency frequency = false -> stepDays frequency = 0.
Proof.
  unfold isFrequency, stepDays.
  destruct (frequency =? "daily")%string; [discriminate|].
  destruct (frequency =? "weekly")%string; [discriminate|].
  destruct (frequency =? "monthly")%string; [discriminate|].
  destruct (frequency =? "yearly")%string; [discriminate|].
  reflexivity.
Qed.

Lemma isToday_localDay env t :
  isToday env (Some t) = (localDay env t =? localDay env (now env)).
Proof.
  unfold isToday, isSameDay, startOfDay; simpl.
  destruct (Z.eqb_spec (localDay env t) (localDay env (now env))) as [E|E].
  - rewrite E. apply Z.eqb_refl.
  - apply Z.eqb_neq. unfold msPerDay. lia.
Qed.

Lemma localDay_mono env a b : a <= b -> localDay env a <= localDay env b.
Proof.
  intros H. unfold localDay, msPerDay.
  apply Z.div_le_mono; lia.
Qed.

Lemma localDay_add_days env t n :
  localDay env (t + n * msPerDay) = localDay env t + n.
Proof.
  unfold localDay, msPerDay.
  replace (t + n * 86400000 + tz env) with (t + tz env + n * 86400000) by lia.
  apply Z.div_add. lia.
Qed.

(** A day or more after the clock the test of the loop fails, in every
    time zone. *)
Lemma not_due_after env t :
  now env + msPerDay <= t ->
  isBefore (Some t) (Some (now env)) || isToday env (Some t) = false.
Proof.
  intros H. rewrite isToday_localDay. simpl.
  assert (Hd : localDay env (now env) + 1 <= localDay env t).
  { rewrite <- (localDay_add_days env (now env) 1).
    apply localDay_mono. lia. }
  apply orb_false_iff; split.
  - apply Z.ltb_ge. unfold msPerDay in H. lia.
  - apply Z.eqb_neq. lia.
Qed.

(** *** Termination *)

(** With one of the four tags the date moves by a day at least in each
    turn, so the loop ends. *)
Lemma whileDue_terminates env n rule t ruleUpdates k :
  isFrequency (frequency rule) = true ->
  now env + msPerDay - t <= Z.of_nat n * msPerDay ->
  exists r,
    whileDue env (S n) rule (Some (now env)) (Some t) ruleUpdates k = Returns r.
Proof.
  intros Hf. revert t ruleUpdates k.
  induction n as [|n IH]; intros t ruleUpdates k Hn.
  - rewrite whileDue_not_due; [eauto|]. apply not_due_after. lia.
  - destruct (isBefore (Some t) (Some (now env)) || isToday env (Some t)) eqn:Hc.
    + destruct (active rule) eqn:Ha.
      * rewrite whileDue_turn by assumption.
        rewrite advance_stepDays. apply IH.
        pose proof (stepDays_frequency _ Hf). unfold msPerDay in *. nia.
      * rewrite whileDue_inactive by assumption. eauto.
    + rewrite whileDue_not_due by assumption. eauto.
Qed.

Lemma whileDue_fuelFor env rule ruleUpdates k :
  isFrequency (frequency rule) = true ->
  exists r,
    whileDue env (fuelFor env rule) rule (Some (now env))
      (newDate env (nextDueDate rule)) ruleUpdates k = Returns r.
Proof.
  intros Hf. unfold fuelFor.
  destruct (newDate env (nextDueDate rule)) as [t|].
  - apply whileDue_terminates; [exact Hf|].
    pose proof (Z.mul_succ_div_gt (now env + msPerDay - t) msPerDay) as Hd.
    unfold msPerDay in *.
    destruct (Z_le_gt_dec 0 ((now env + 86400000 - t) / 86400000 + 1)).
    + rewrite Z2Nat.id by assumption. lia.
    + lia.
  - rewrite whileDue_not_due by reflexivity. eauto.
Qed.

(** With a tag outside the four the date stays where it is: an active
    rule that is due is never left. *)
Lemma whileDue_diverges env fuel rule today t ruleUpdates k :
  isFrequency (frequency rule) = false ->
  active rule = true ->
  isBefore (Some t) today || isToday env (Some t) = true ->
  whileDue env fuel rule today (Some t) ruleUpdates k = OutOfFuel.
Proof.
  intros Hf Ha Hc. revert ruleUpdates k.
  induction fuel as [|fuel IH]; intros ruleUpdates k; [reflexivity|].
  rewrite whileDue_turn by assumption.
  rewrite advance_stepDays, (stepDays_unknown _ Hf).
  replace (t + 0 * msPerDay) with t by lia.
  apply IH.
Qed.

(** *** The callback of [map] *)

Lemma whileDue_valid_date env fuel rule today t ruleUpdates k nextDate' ruleUpdates' k' :
  whileDue env fuel rule today (Some t) ruleUpdates k
  = Returns (nextDate', ruleUpdates', k') ->
  exists t', nextDate' = Some t'.
Proof.
  revert t ruleUpdates k.
  induction fuel as [|fuel IH]; intros t ruleUpdates k H; [discriminate|].
  rewrite whileDue_S in H.
  destruct (isBefore (Some t) today || isToday env (Some t)).
  - destruct (negb (active rule)).
    + injection H as <- _ _. eauto.
    + simpl in H. rewrite advance_stepDays in H. eapply IH, H.
  - injection H as <- _ _. eauto.
Qed.

Lemma processRule_skip env fuel rule acc :
  due env rule = false \/ active rule = false ->
  processRule env (S fuel) (newDateNow env) rule acc = Returns (rule, acc).
Proof.
  intros H. unfold processRule.
  assert (E : whileDue env (S fuel) rule (newDateNow env)
                (newDate env (nextDueDate rule)) [] (drawn acc)
              = Returns (newDate env (nextDueDate rule), [], drawn acc)).
  { destruct H as [H|H].
    - apply whileDue_not_due. exact H.
    - apply whileDue_inactive. exact H. }
  rewrite E. simpl. rewrite Acc_eta. reflexivity.
Qed.

Lemma processRule_fuel_mono env fuel fuel' today rule acc r :
  processRule env fuel today rule acc = Returns r ->
  (fuel <= fuel')%nat ->
  processRule env fuel' today rule acc = Returns r.
Proof.
  unfold processRule. intros H Hle.
  bind_inv H as x Hw.
  rewrite (whileDue_fuel_mono _ _ _ _ _ _ _ _ _ Hw Hle). exact H.
Qed.

Lemma processRule_total env rule acc :
  isFrequency (frequency rule) = true ->
  exists r,
    processRule env (fuelFor env rule) (newDateNow env) rule acc = Returns r.
Proof.
  intros Hf. unfold processRule, newDateNow.
  destruct (whileDue_fuelFor env rule [] (drawn acc) Hf) as ([[nd upd] k] & Hw).
  rewrite Hw. simpl.
  destruct (0 <? List.length upd)%nat eqn:Hl; [|eauto].
  destruct (newDate env (nextDueDate rule)) as [t|] eqn:Hd.
  - destruct (whileDue_valid_date _ _ _ _ _ _ _ _ _ _ Hw) as (t' & ->).
    simpl. eauto.
  - unfold fuelFor in Hw. rewrite Hd in Hw.
    rewrite whileDue_not_due in Hw by reflexivity.
    injection Hw as _ <- _. discriminate.
Qed.

(** [format] is never called on the Invalid Date: the callback does not
    throw. *)
Lemma processRule_no_throw env fuel rule acc :
  processRule env fuel (newDateNow env) rule acc <> Throws.
Proof.
  unfold processRule, newDateNow.
  destruct (whileDue env fuel rule (Some (now env))
              (newDate env (nextDueDate rule)) [] (drawn acc))
    as [[[nd upd] k]| |] eqn:Hw; cbn [bind]; try discriminate.
  - destruct (0 <? List.length upd)%nat eqn:Hl; [|discriminate].
    destruct (newDate env (nextDueDate rule)) as [t|].
    + destruct (whileDue_valid_date _ _ _ _ _ _ _ _ _ _ Hw) as (t' & ->).
      discriminate.
    + destruct fuel as [|fuel]; [discriminate|].
      rewrite whileDue_not_due in Hw by reflexivity.
      injection Hw as _ <- _. discriminate.
  - exfalso. exact (whileDue_no_throw _ _ _ _ _ _ _ Hw).
Qed.

(** What one call of the callback does to the rule and to the variables
    of the enclosing function. *)
Lemma processRule_inv env fuel today rule acc rule' acc' :
  processRule env fuel today rule acc = Returns (rule', acc') ->
  exists fresh,
    newExpenses acc' = newExpenses acc ++ fresh
    /\ drawn acc' = (drawn acc + List.length fresh)%nat
    /\ hasUpdates acc' = hasUpdates acc || (0 <? List.length fresh)%nat
    /\ Forall (fromTemplate rule) fresh
    /\ sameIdentity rule rule'
    /\ (fresh = [] -> rule' = rule).
Proof.
  unfold processRule. intros H.
  bind_inv H as [[nd upd] k] Hw. rename H into Hk.
  apply whileDue_appends in Hw. destruct Hw as (fresh & -> & -> & Hall).
  simpl in Hk. exists fresh.
  destruct (0 <? List.length fresh)%nat eqn:Hl.
  - bind_inv Hk as next _.
    bind_inv Hk as last _.
    injection Hk as <- <-. simpl.
    rewrite orb_true_r. repeat split; try assumption.
    intros ->. discriminate.
  - injection Hk as <- <-. simpl.
    apply Nat.ltb_ge in Hl.
    destruct fresh; [|simpl in Hl; lia].
    rewrite app_nil_r, orb_false_r. repeat split; auto.
Qed.

(** *** The map over the rules *)

Lemma mapRules_cons env fuel today rule rest acc :
  mapRules env fuel today (rule :: rest) acc
  = '(rule', acc') <- processRule env fuel today rule acc ;;
    '(rest', acc'') <- mapRules env fuel today rest acc' ;;
    Returns (rule' :: rest', acc'').
Proof. reflexivity. Qed.

Lemma mapRules_app env fuel today rs1 rs2 acc :
  mapRules env fuel today (rs1 ++ rs2) acc
  = '(us1, acc1) <- mapRules env fuel today rs1 acc ;;
    '(us2, acc2) <- mapRules env fuel today rs2 acc1 ;;
    Returns (us1 ++ us2, acc2).
Proof.
  revert acc. induction rs1 as [|r rs1 IH]; intros acc.
  - simpl. destruct (mapRules env fuel today rs2 acc) as [[us2 acc2]| |];
      reflexivity.
  - rewrite <- app_comm_cons, !mapRules_cons.
    destruct (processRule env fuel today r acc) as [[r' acc']| |];
      simpl; try reflexivity.
    rewrite IH.
    destruct (mapRules env fuel today rs1 acc') as [[us1 acc1]| |];
      simpl; try reflexivity.
    destruct (mapRules env fuel today rs2 acc1) as [[us2 acc2]| |];
      reflexivity.
Qed.

Lemma mapRules_fuel_mono env fuel fuel' today rules acc r :
  mapRules env fuel today rules acc = Returns r ->
  (fuel <= fuel')%nat ->
  mapRules env fuel' today rules acc = Returns r.
Proof.
  revert acc r. induction rules as [|rule rest IH]; intros acc r H Hle.
  - exact H.
  - rewrite mapRules_cons in H |- *.
    bind_inv H as [rule' acc'] Hp.
    bind_inv H as [rest' acc''] Hm.
    rewrite (processRule_fuel_mono _ _ _ _ _ _ _ Hp Hle). simpl.
    rewrite (IH _ _ Hm Hle). exact H.
Qed.

Lemma fuelForAll_cons env rule rest :
  fuelForAll env (rule :: rest)
  = Nat.max (fuelFor env rule) (fuelForAll env rest).
Proof. reflexivity. Qed.

Lemma mapRules_total env rules acc :
  Forall (fun rule => isFrequency (frequency rule) = true) rules ->
  exists r,
    mapRules env (fuelForAll env rules) (newDateNow env) rules acc = Returns r.
Proof.
  intros Hall. revert acc.
  induction Hall as [|rule rest Hf Hrest IH]; intros acc.
  - simpl. eauto.
  - rewrite fuelForAll_cons, mapRules_cons.
    destruct (processRule_total env rule acc Hf) as ([rule' acc'] & Hp).
    destruct (IH acc') as ([rest' acc''] & Hm).
    rewrite (processRule_fuel_mono _ _ _ _ _ _ _ Hp
               (Nat.le_max_l _ _)). simpl.
    rewrite (mapRules_fuel_mono _ _ _ _ _ _ _ Hm (Nat.le_max_r _ _)).
    simpl. eauto.
Qed.

Lemma mapRules_inv env fuel today rules acc us acc' :
  mapRules env fuel today rules acc = Returns (us, acc') ->
  Forall2 sameIdentity rules us
  /\ exists fresh,
       newExpenses acc' = newExpenses acc ++ fresh
       /\ drawn acc' = (drawn acc + List.length fresh)%nat
       /\ hasUpdates acc' = hasUpdates acc || (0 <? List.length fresh)%nat
       /\ Forall (fun e => exists rule, In rule rules /\ fromTemplate rule e)
            fresh.
Proof.
  revert acc us acc'.
  induction rules as [|rule rest IH]; intros acc us acc' H.
  - injection H as <- <-. split; [constructor|].
    exists []. rewrite app_nil_r, orb_false_r. simpl.
    repeat split; [lia | constructor].
  - rewrite mapRules_cons in H.
    bind_inv H as [rule' acc1] Hp.
    bind_inv H as [rest' acc2] Hm.
    injection H as <- <-.
    apply processRule_inv in Hp.
    destruct Hp as (f1 & Hn1 & Hd1 & Hu1 & Ht1 & Hid & _).
    apply IH in Hm. destruct Hm as (Hids & f2 & Hn2 & Hd2 & Hu2 & Ht2).
    split; [constructor; assumption|].
    exists (f1 ++ f2). rewrite Hn2, Hn1, Hd2, Hd1, Hu2, Hu1, app_assoc.
    rewrite length_app. repeat split.
    + lia.
    + destruct f1; destruct f2; simpl; rewrite ?orb_false_r, ?orb_true_r;
        reflexivity.
    + apply Forall_app; split.
      * eapply Forall_impl; [|exact Ht1].
        intros e He. exists rule. split; [left; reflexivity | exact He].
      * eapply Forall_impl; [|exact Ht2].
        intros e (r & Hin & He). exists r. split; [right; exact Hin | exact He].
Qed.

Lemma mapRules_length env fuel today rules acc us acc' :
  mapRules env fuel today rules acc = Returns (us, acc') ->
  List.length us = List.length rules.
Proof.
  intros H. apply mapRules_inv in H. destruct H as (H & _).
  symmetry. eapply Forall2_length, H.
Qed.

(** A rule that the callback hands back untouched, whatever it is given,
    can be taken out of the list and put back afterwards. *)
Lemma mapRules_skip env fuel today rs1 rule rs2 acc :
  (forall a, processRule env fuel today rule a = Returns (rule, a)) ->
  mapRules env fuel today (rs1 ++ rule :: rs2) acc
  = '(us, acc') <- mapRules env fuel today (rs1 ++ rs2) acc ;;
    Returns (insertAt (List.length rs1) rule us, acc').
Proof.
  intros Hskip. rewrite !mapRules_app.
  destruct (mapRules env fuel today rs1 acc) as [[us1 acc1]| |] eqn:H1;
    cbn [bind]; try reflexivity.
  rewrite mapRules_cons, Hskip. cbn [bind].
  destruct (mapRules env fuel today rs2 acc1) as [[us2 acc2]| |];
    cbn [bind]; try reflexivity.
  unfold insertAt. rewrite <- (mapRules_length _ _ _ _ _ _ _ H1).
  rewrite firstn_app, skipn_app, Nat.sub_diag, firstn_all, skipn_all.
  simpl. rewrite app_nil_r. reflexivity.
Qed.

(** ** The loop in closed form *)

(** The test of line 94 compares local calendar days, in every time zone:
    it holds exactly when the local day of [nextDate] is not after the
    local day of the clock. *)
Lemma due_iff_localDay env t :
  isBefore (Some t) (Some (now env)) || isToday env (Some t)
  = (localDay env t <=? localDay env (now env)).
Proof.
  rewrite isToday_localDay. simpl.
  destruct (Z.leb_spec (localDay env t) (localDay env (now env))) as [H|H].
  - destruct (Z.eqb_spec (localDay env t) (localDay env (now env))) as [E|E];
      [apply orb_true_r|].
    rewrite orb_false_r. apply Z.ltb_lt.
    destruct (Z_lt_ge_dec t (now env)) as [L|L]; [exact L|].
    assert (G : localDay env (now env) <= localDay env t)
      by (apply localDay_mono; lia).
    lia.
  - apply orb_false_iff; split.
    + apply Z.ltb_ge.
      destruct (Z_le_gt_dec (now env) t) as [L|L]; [exact L|].
      assert (G : localDay env t <= localDay env (now env))
        by (apply localDay_mono; lia).
      lia.
    + apply Z.eqb_neq. lia.
Qed.

Lemma countDue_later today day step :
  today < day -> countDue today day step = O.
Proof.
  intros H. unfold countDue.
  destruct (Z.leb_spec day today); [lia | reflexivity].
Qed.

Lemma countDue_turn today day step :
  1 <= step -> day <= today ->
  countDue today day step = S (countDue today (day + step) step).
Proof.
  intros Hs Hd. unfold countDue.
  destruct (Z.leb_spec day today) as [_|G]; [|lia].
  destruct (Z.leb_spec (day + step) today) as [H|H].
  - f_equal.
    replace (today - day) with (today - (day + step) + 1 * step) by lia.
    rewrite Z.div_add by lia.
    assert (Hq : 0 <= (today - (day + step)) / step)
      by (apply Z.div_pos; lia).
    revert Hq. generalize ((today - (day + step)) / step). intros q Hq.
    lia.
  - rewrite Z.div_small by lia. reflexivity.
Qed.

(** For an active rule with one of the four tags the loop generates the
    occurrences on the local day of [nextDate] and every [stepDays] days
    after it up to the local day of the clock, and leaves [nextDate] on
    the first occurrence after that day. *)
Lemma whileDue_closed_form env fuel rule t ruleUpdates k :
  isFrequency (frequency rule) = true ->
  active rule = true ->
  (countDue (localDay env (now env)) (localDay env t)
     (stepDays (frequency rule)) < fuel)%nat ->
  whileDue env fuel rule (Some (now env)) (Some t) ruleUpdates k
  = Returns
      (Some (t + Z.of_nat (countDue (localDay env (now env)) (localDay env t)
                             (stepDays (frequency rule)))
                 * (stepDays (frequency rule) * msPerDay)),
       ruleUpdates
       ++ occurrences env rule
            (countDue (localDay env (now env)) (localDay env t)
               (stepDays (frequency rule)))
            (localDay env t) (stepDays (frequency rule)) k,
       (k + countDue (localDay env (now env)) (localDay env t)
              (stepDays (frequency rule)))%nat).
Proof.
  intros Hf Ha. pose proof (stepDays_frequency _ Hf) as Hs.
  revert t ruleUpdates k.
  induction fuel as [|fuel IH]; intros t ruleUpdates k Hn; [lia|].
  destruct (Z.leb_spec (localDay env t) (localDay env (now env))) as [H|H].
  - rewrite whileDue_turn; [| rewrite due_iff_localDay; apply Z.leb_le, H
                            | exact Ha].
    rewrite advance_stepDays.
    rewrite (countDue_turn _ _ _ Hs H) in Hn |- *.
    rewrite IH; rewrite localDay_add_days; [|lia].
    cbn [occurrences]. rewrite <- app_assoc. cbn [app].
    unfold formatTime.
    set (c := countDue _ (localDay env t + _) _).
    replace (t + stepDays (frequency rule) * msPerDay
             + Z.of_nat c * (stepDays (frequency rule) * msPerDay))
      with (t + Z.of_nat (S c) * (stepDays (frequency rule) * msPerDay))
      by (rewrite Nat2Z.inj_succ; ring).
    replace (S k + c)%nat with (k + S c)%nat by lia.
    reflexivity.
  - rewrite whileDue_not_due
      by (rewrite due_iff_localDay; apply Z.leb_gt, H).
    rewrite (countDue_later _ _ _ H). cbn [occurrences].
    rewrite app_nil_r, Nat.add_0_r. repeat f_equal. lia.
Qed.

Lemma localDay_midnight env day :
  localDay env (day * msPerDay) = day + dayShift env.
Proof.
  unfold dayShift.
  replace (day * msPerDay) with (0 + day * msPerDay) by lia.
  rewrite localDay_add_days. lia.
Qed.

Lemma dayShift_east env : 0 <= tz env < msPerDay -> dayShift env = 0.
Proof.
  intros H. unfold dayShift, localDay. apply Z.div_small. lia.
Qed.

Lemma dayShift_west env : - msPerDay <= tz env < 0 -> dayShift env = -1.
Proof.
  intros H. unfold dayShift, localDay, msPerDay in *.
  symmetry. apply (Z.div_unique _ _ _ (tz env + 86400000)); lia.
Qed.

Lemma occurrences_length env rule n day step k :
  List.length (occurrences env rule n day step k) = n.
Proof.
  revert day k. induction n as [|n IH]; intros day k; simpl;
    [reflexivity | rewrite IH; reflexivity].
Qed.

(** The callback in closed form, for an active rule with one of the four
    tags whose date parses to the instant [t], in any time zone: the first
    occurrence falls on the local day of [t]. *)
Lemma processRule_from env fuel rule acc t :
  isFrequency (frequency rule) = true ->
  active rule = true ->
  newDate env (nextDueDate rule) = Some t ->
  (countDue (localDay env (now env)) (localDay env t)
     (stepDays (frequency rule)) < fuel)%nat ->
  processRule env fuel (newDateNow env) rule acc
  = Returns
      match countDue (localDay env (now env)) (localDay env t)
              (stepDays (frequency rule)) with
      | O => (rule, acc)
      | S m =>
          (reschedule rule
             (formatDay (localDay env t
                         + Z.of_nat (S m) * stepDays (frequency rule)))
             (formatDay (localDay env (now env))),
           {| newExpenses :=
                newExpenses acc
                ++ occurrences env rule (S m) (localDay env t)
                     (stepDays (frequency rule)) (drawn acc);
              hasUpdates := true;
              drawn := (drawn acc + S m)%nat |})
      end.
Proof.
  intros Hf Ha Hd Hn. unfold processRule, newDateNow. rewrite Hd.
  rewrite whileDue_closed_form; try assumption.
  set (n := countDue _ _ _) in *. cbn [bind app].
  rewrite occurrences_length.
  destruct n as [|m].
  - cbn [Nat.ltb Nat.leb]. rewrite Nat.add_0_r, Acc_eta. reflexivity.
  - change (0 <? S m)%nat with true. cbv iota.
    unfold format, formatTime. cbn [option_map ofOption bind].
    rewrite Z.mul_assoc, localDay_add_days.
    reflexivity.
Qed.

(** The same for a date in the date-only form, which is UTC midnight of
    the day written: the first occurrence falls on the local day of that
    instant. *)
Lemma processRule_closed_form env fuel rule acc day :
  isFrequency (frequency rule) = true ->
  active rule = true ->
  newDate env (nextDueDate rule) = Some (day * msPerDay) ->
  (countDue (localDay env (now env)) (day + dayShift env)
     (stepDays (frequency rule)) < fuel)%nat ->
  processRule env fuel (newDateNow env) rule acc
  = Returns
      match countDue (localDay env (now env)) (day + dayShift env)
              (stepDays (frequency rule)) with
      | O => (rule, acc)
      | S m =>
          (reschedule rule
             (formatDay (day + dayShift env
                         + Z.of_nat (S m) * stepDays (frequency rule)))
             (formatDay (localDay env (now env))),
           {| newExpenses :=
                newExpenses acc
                ++ occurrences env rule (S m) (day + dayShift env)
                     (stepDays (frequency rule)) (drawn acc);
              hasUpdates := true;
              drawn := (drawn acc + S m)%nat |})
      end.
Proof.
  intros Hf Ha Hd Hn.
  pose proof (processRule_from env fuel rule acc _ Hf Ha Hd) as H.
  rewrite localDay_midnight in H. exact (H Hn).
Qed.

(** What a run returns does not depend on the fuel it was given. *)
Lemma materialize_fuel_independent env fuel fuel' rules k r r' :
  materialize env fuel rules k = Returns r ->
  materialize env fuel' rules k = Returns r' ->
  r = r'.
Proof.
  unfold materialize. intros H H'.
  apply (mapRules_fuel_mono _ _ (Nat.max fuel fuel')) in H;
    [|apply Nat.le_max_l].
  apply (mapRules_fuel_mono _ _ (Nat.max fuel fuel')) in H';
    [|apply Nat.le_max_r].
  congruence.
Qed.

(** ** Dates written and read back *)

Lemma checkFrom_spec n z P :
  checkFrom n z P = true ->
  forall x, z <= x < z + Z.of_nat n -> P x = true.
Proof.
  revert z. induction n as [|n IH]; intros z H x Hx; [lia|].
  simpl in H. apply andb_prop in H. destruct H as (Hz & Hrest).
  destruct (Z.eq_dec x z) as [->|Hne]; [exact Hz|].
  apply (IH (z + 1) Hrest). lia.
Qed.

Lemma era_day_bounds doe :
  0 <= doe < 146097 ->
  0 <= yearOfEraDay doe <= 399
  /\ 0 <= monthIndex doe <= 11
  /\ 1 <= dayOfMonth doe <= 31.
Proof.
  intros H.
  assert (Hy : 0 <= yearOfEraDay doe <= 399).
  { unfold yearOfEraDay. Z.div_mod_to_equations. lia. }
  assert (Hd : 0 <= dayOfYear doe <= 365).
  { unfold dayOfYear, yearOfEraDay. Z.div_mod_to_equations. lia. }
  split; [exact Hy|].
  unfold dayOfMonth, monthIndex. revert Hd.
  generalize (dayOfYear doe). intros doy Hd.
  Z.div_mod_to_equations. lia.
Qed.

Lemma fourDigitsOK_all n : 0 <= n < 10000 -> fourDigitsOK n = true.
Proof.
  intros H.
  apply (checkFrom_spec (Z.to_nat 10000) 0 fourDigitsOK); [|lia].
  vm_compute. reflexivity.
Qed.

Lemma twoDigitsOK_all n : 0 <= n < 100 -> twoDigitsOK n = true.
Proof.
  intros H.
  apply (checkFrom_spec (Z.to_nat 100) 0 twoDigitsOK); [|lia].
  vm_compute. reflexivity.
Qed.

Lemma era_of_year yoe era :
  0 <= yoe <= 399 -> (yoe + era * 400) / 400 = era.
Proof.
  intros H. rewrite Z.div_add by lia. rewrite Z.div_small by lia. lia.
Qed.

(** The day number of the calendar date of a day number is that day
    number, and the month and the day of the month are in range. *)
Lemma civilFromDays_inverse z :
  let '(y, m, d) := civilFromDays z in
  daysFromCivil y m d = z
  /\ 1 <= m <= 12 /\ 1 <= d <= 31
  /\ (z + 719468) / 146097 * 400 <= y <= (z + 719468) / 146097 * 400 + 400.
Proof.
  unfold civilFromDays.
  set (era := (z + 719468) / 146097).
  set (doe := z + 719468 - era * 146097).
  assert (Hdoe : 0 <= doe < 146097).
  { subst doe era.
    pose proof (Z.mul_div_le (z + 719468) 146097).
    pose proof (Z.mul_succ_div_gt (z + 719468) 146097). lia. }
  destruct (era_day_bounds doe Hdoe) as (Hy & Hm & Hd).
  assert (Hz : era * 146097 + doe - 719468 = z) by (subst doe; lia).
  unfold daysFromCivil.
  destruct (Z.ltb_spec (monthIndex doe) 10) as [L|L].
  - destruct (Z.leb_spec (monthIndex doe + 3) 2) as [G|G]; [lia|].
    destruct (Z.ltb_spec 2 (monthIndex doe + 3)) as [G'|G']; [|lia].
    rewrite (era_of_year _ _ Hy).
    replace (monthIndex doe + 3 - 3) with (monthIndex doe) by lia.
    repeat split; try lia.
    transitivity (era * 146097 + doe - 719468); [|exact Hz].
    replace (yearOfEraDay doe + era * 400 - era * 400)
      with (yearOfEraDay doe) by lia.
    unfold dayOfMonth, dayOfYear.
    generalize ((153 * monthIndex doe + 2) / 5).
    generalize (yearOfEraDay doe / 4) (yearOfEraDay doe / 100).
    intros; lia.
  - destruct (Z.leb_spec (monthIndex doe - 9) 2) as [G|G]; [|lia].
    destruct (Z.ltb_spec 2 (monthIndex doe - 9)) as [G'|G']; [lia|].
    replace (yearOfEraDay doe + era * 400 + 1 - 1)
      with (yearOfEraDay doe + era * 400) by lia.
    rewrite (era_of_year _ _ Hy).
    replace (monthIndex doe - 9 + 9) with (monthIndex doe) by lia.
    repeat split; try lia.
    transitivity (era * 146097 + doe - 719468); [|exact Hz].
    replace (yearOfEraDay doe + era * 400 - era * 400)
      with (yearOfEraDay doe) by lia.
    unfold dayOfMonth, dayOfYear.
    generalize ((153 * monthIndex doe + 2) / 5).
    generalize (yearOfEraDay doe / 4) (yearOfEraDay doe / 100).
    intros; lia.
Qed.

Lemma fourDigits_read n :
  0 <= n < 10000 ->
  exists a b c d,
    Digits.addLeadingZeros n 4
    = String a (String b (String c (String d EmptyString)))
    /\ Digits.readDigits
         (String a (String b (String c (String d EmptyString)))) 0
       = Some n.
Proof.
  intros H. pose proof (fourDigitsOK_all n H) as Hok.
  unfold fourDigitsOK in Hok.
  destruct (Digits.addLeadingZeros n 4) as [|a [|b [|c [|d [|? ?]]]]];
    try discriminate.
  exists a, b, c, d. split; [reflexivity|].
  destruct (Digits.readDigits _ 0) as [v|]; [|discriminate].
  apply Z.eqb_eq in Hok. congruence.
Qed.

Lemma twoDigits_read n :
  0 <= n < 100 ->
  exists a b,
    Digits.addLeadingZeros n 2 = String a (String b EmptyString)
    /\ Digits.readDigits (String a (String b EmptyString)) 0 = Some n.
Proof.
  intros H. pose proof (twoDigitsOK_all n H) as Hok.
  unfold twoDigitsOK in Hok.
  destruct (Digits.addLeadingZeros n 2) as [|a [|b [|? ?]]];
    try discriminate.
  exists a, b. split; [reflexivity|].
  destruct (Digits.readDigits _ 0) as [v|]; [|discriminate].
  apply Z.eqb_eq in Hok. congruence.
Qed.

Lemma newDate_fields env y1 y2 y3 y4 m1 m2 d1 d2 y m d :
  Digits.readDigits
    (String y1 (String y2 (String y3 (String y4 EmptyString)))) 0 = Some y ->
  Digits.readDigits (String m1 (String m2 EmptyString)) 0 = Some m ->
  Digits.readDigits (String d1 (String d2 EmptyString)) 0 = Some d ->
  1 <= m <= 12 -> 1 <= d <= 31 ->
  newDate env
    (String y1 (String y2 (String y3 (String y4 (String "-"
      (String m1 (String m2 (String "-"
        (String d1 (String d2 EmptyString))))))))))
  = Some (daysFromCivil y m d * msPerDay).
Proof.
  intros Hy Hm Hd Bm Bd. unfold newDate. rewrite Hy, Hm, Hd.
  destruct (Z.leb_spec 1 m); [|lia].
  destruct (Z.leb_spec m 12); [|lia].
  destruct (Z.leb_spec 1 d); [|lia].
  destruct (Z.leb_spec d 31); [|lia].
  reflexivity.
Qed.

(** From 1970 to the end of the 96th century, a date written by [format]
    is read back by [new Date] as UTC midnight of the same day. *)
Lemma newDate_formatDay env day :
  0 <= day < farDay ->
  newDate env (formatDay day) = Some (day * msPerDay).
Proof.
  intros H. unfold formatDay.
  pose proof (civilFromDays_inverse day) as Hinv.
  destruct (civilFromDays day) as [[y m] d].
  destruct Hinv as (Hday & Hm & Hd & Hy).
  assert (Hera : 4 <= (day + 719468) / 146097 <= 23).
  { unfold farDay in H. Z.div_mod_to_equations. lia. }
  assert (Hy' : 0 < y < 10000) by lia.
  unfold yearOfEra. destruct (Z.ltb_spec 0 y); [|lia].
  destruct (fourDigits_read y) as (y1 & y2 & y3 & y4 & -> & Ry); [lia|].
  destruct (twoDigits_read m) as (m1 & m2 & -> & Rm); [lia|].
  destruct (twoDigits_read d) as (d1 & d2 & -> & Rd); [lia|].
  cbn [append].
  rewrite (newDate_fields env _ _ _ _ _ _ _ _ _ _ _ Ry Rm Rd Hm Hd), Hday.
  reflexivity.
Qed.

(** ** Inactive rules (C7) *)

(** C7 -- Inactive rules are frozen.  For a rule with [active = false] the
    callback returns the very same rule (so [nextDueDate], [lastRun] and
    every other field are as before) and leaves the accumulated
    transactions as they were, whatever [nextDueDate] holds; hence running
    the engine on a rule set that contains the rule is running it on the
    set without the rule and putting the rule back, unchanged, in its
    place: no instance is generated for it. *)
Theorem inactive_rule_frozen env fuel rs1 rule rs2 k :
  active rule = false ->
  (forall acc,
      processRule env (S fuel) (newDateNow env) rule acc = Returns (rule, acc))
  /\ materialize env (S fuel) (rs1 ++ rule :: rs2) k
     = '(us, acc) <- materialize env (S fuel) (rs1 ++ rs2) k ;;
       Returns (insertAt (List.length rs1) rule us, acc).
Proof.
  intros Ha.
  assert (Hskip : forall acc,
             processRule env (S fuel) (newDateNow env) rule acc
             = Returns (rule, acc)).
  { intros acc. apply processRule_skip. right. exact Ha. }
  split; [exact Hskip|].
  unfold materialize. apply mapRules_skip. exact Hskip.
Qed.

Lemma inactive_rule_frozen_witness :
  active frozenRule = false
  /\ materialize envUTC 6 ([dailyRule] ++ frozenRule :: []) 0
     = '(us, acc) <- materialize envUTC 6 ([dailyRule] ++ []) 0 ;;
       Returns (insertAt 1 frozenRule us, acc).
Proof.
  split; [reflexivity|].
  apply (inactive_rule_frozen envUTC 5 [dailyRule] frozenRule [] 0).
  reflexivity.
Defined.

(** ** The rule set (C10) *)

(** C10 -- Rule-set preservation.  On rules that carry one of the four
    frequency tags the engine returns, and whatever it returns has as many
    rules as it was given, in the same order, each with the [id],
    [frequency], [active] flag and template of the rule it was made from:
    nothing is added, removed or reordered, and only [nextDueDate] and
    [lastRun] may differ. *)
Theorem rule_set_preserved env rules k :
  (Forall (fun rule => isFrequency (frequency rule) = true) rules ->
   exists fuel r, materialize env fuel rules k = Returns r)
  /\ forall fuel r,
       materialize env fuel rules k = Returns r ->
       List.length (updatedRules r) = List.length rules
       /\ Forall2 sameIdentity rules (updatedRules r).
Proof.
  split.
  - intros Hf.
    destruct (mapRules_total env rules
                {| newExpenses := []; hasUpdates := false; drawn := k |} Hf)
      as (r & Hr).
    exists (fuelForAll env rules), r. exact Hr.
  - intros fuel [us acc] H. unfold materialize in H. simpl.
    split.
    + eapply mapRules_length, H.
    + eapply mapRules_inv, H.
Qed.

Lemma rule_set_preserved_witness :
  (exists fuel r, materialize envUTC fuel [dailyRule; frozenRule] 0 = Returns r)
  /\ forall fuel r,
       materialize envUTC fuel [dailyRule; frozenRule] 0 = Returns r ->
       List.length (updatedRules r) = List.length [dailyRule; frozenRule]
       /\ Forall2 sameIdentity [dailyRule; frozenRule] (updatedRules r).
Proof.
  split.
  - apply (proj1 (rule_set_preserved envUTC [dailyRule; frozenRule] 0)).
    repeat constructor.
  - apply (proj2 (rule_set_preserved envUTC [dailyRule; frozenRule] 0)).
Defined.

(** ** The template (C8) *)

(** C8, as stated, fails: a template stored without [type] yields
    instances of type [expense] (line 102), which is not the (absent)
    type of the template. *)
Lemma absent_type_becomes_expense :
  exists r e,
    materialize envUTC 5 [untypedRule] 0 = Returns r
    /\ In e (generated r)
    /\ Some (e_type e) <> t_type (expenseTemplate untypedRule).
Proof.
  eexists. eexists. split; [vm_compute; reflexivity|].
  split; [left; reflexivity|].
  vm_compute. discriminate.
Qed.

(** C8, amended -- Template fidelity.  Every instance the callback
    generates for a rule has the amount, category, payment mode and note of
    the template of the rule, and its type when the template has one,
    [expense] otherwise; so two instances of one rule differ at most in
    [id], [date] and [createdAt].  Over a whole run, every generated
    instance is taken in this way from the template of one of the rules. *)
Theorem template_fidelity env fuel :
  (forall today rule acc rule' acc',
      processRule env fuel today rule acc = Returns (rule', acc') ->
      exists fresh,
        newExpenses acc' = newExpenses acc ++ fresh
        /\ Forall (fromTemplate rule) fresh
        /\ forall e1 e2, In e1 fresh -> In e2 fresh -> samePayload e1 e2)
  /\ (forall rules k r,
         materialize env fuel rules k = Returns r ->
         Forall (fun e => exists rule, In rule rules /\ fromTemplate rule e)
           (generated r)).
Proof.
  split.
  - intros today rule acc rule' acc' H.
    apply processRule_inv in H. destruct H as (fresh & Hn & _ & _ & Hall & _).
    exists fresh. repeat split; try assumption.
    all: rewrite Forall_forall in Hall;
      destruct (Hall _ H) as (A1 & A2 & A3 & A4 & A5);
      destruct (Hall _ H0) as (B1 & B2 & B3 & B4 & B5); congruence.
  - intros rules k [us acc] H. unfold materialize in H.
    apply mapRules_inv in H. destruct H as (_ & fresh & Hn & _ & _ & Hall).
    unfold generated. simpl in *. rewrite Hn. exact Hall.
Qed.

(** When the template has a type, every instance has that type. *)
Lemma template_type_copied env fuel rules k r ty :
  Forall (fun rule => t_type (expenseTemplate rule) = Some ty) rules ->
  materialize env fuel rules k = Returns r ->
  Forall (fun e => e_type e = ty) (generated r).
Proof.
  intros Hty H. destruct r as [us acc]. unfold materialize in H.
  apply mapRules_inv in H. destruct H as (_ & fresh & Hn & _ & _ & Hall).
  unfold generated. simpl in *. rewrite Hn.
  eapply Forall_impl; [|exact Hall].
  intros e (rule & Hin & _ & _ & _ & _ & He).
  rewrite Forall_forall in Hty. specialize (Hty _ Hin).
  unfold typeOrExpense in He. rewrite Hty in He. exact He.
Qed.

Lemma template_fidelity_witness :
  exists r,
    materialize envUTC 5 [untypedRule] 0 = Returns r
    /\ Forall (fun e => exists rule,
                   In rule [untypedRule] /\ fromTemplate rule e)
         (generated r).
Proof.
  eexists. split; [vm_compute; reflexivity|].
  apply (proj2 (template_fidelity envUTC 5) [untypedRule] 0%nat).
  vm_compute. reflexivity.
Defined.

(** ** Malformed rules (C3) *)

(** C3, as stated, fails: an active rule that is due and carries a
    frequency tag outside the four keeps the loop turning for ever, so the
    run does not return and the rules after it are never reached. *)
Lemma unknown_frequency_never_returns :
  isFrequency (frequency hourlyRule) = false
  /\ forall fuel,
       materialize envUTC fuel [hourlyRule; dailyRule] 0 = OutOfFuel.
Proof.
  split; [reflexivity|].
  intros fuel. unfold materialize. rewrite mapRules_cons.
  unfold processRule.
  change (newDate envUTC (nextDueDate hourlyRule))
    with (Some (19875 * msPerDay)).
  rewrite whileDue_diverges; reflexivity.
Qed.

(** C3, amended -- Malformed-rule isolation.  A rule whose [nextDueDate]
    does not parse, that is, for which [new Date] gives the Invalid Date,
    is skipped: the run on a rule set that contains it is the run on the
    set without it, with the rule put back unchanged in its place, so no
    instance is generated for it and the other rules are processed as they
    would be without it.  A string that [new Date] does parse, in whatever
    form, is not of this kind.  A rule whose frequency tag is not one of
    the four is skipped in the same way when it is inactive or not yet
    due, that is, when the test of line 94 fails at its date. *)
Theorem malformed_rule_skipped env fuel rs1 rule rs2 k :
  newDate env (nextDueDate rule) = None
  \/ (isFrequency (frequency rule) = false
      /\ (active rule = false \/ due env rule = false)) ->
  materialize env (S fuel) (rs1 ++ rule :: rs2) k
  = '(us, acc) <- materialize env (S fuel) (rs1 ++ rs2) k ;;
    Returns (insertAt (List.length rs1) rule us, acc).
Proof.
  intros H. unfold materialize. apply mapRules_skip.
  intros acc. apply processRule_skip.
  destruct H as [H | (_ & [H | H])].
  - left. unfold due. rewrite H. reflexivity.
  - right. exact H.
  - left. exact H.
Qed.

Lemma malformed_rule_skipped_witness :
  materialize envUTC 6 ([dailyRule] ++ undatedRule :: [frozenRule]) 0
  = '(us, acc) <- materialize envUTC 6 ([dailyRule] ++ [frozenRule]) 0 ;;
    Returns (insertAt 1 undatedRule us, acc).
Proof.
  apply (malformed_rule_skipped envUTC 5 [dailyRule] undatedRule [frozenRule] 0).
  left. reflexivity.
Defined.

(** ** Effects (C4) *)




(** Whether the flag of line 87 is set is whether anything was
    generated. *)
Lemma materialize_acc env fuel rules k us acc :
  materialize env fuel rules k = Returns (us, acc) ->
  drawn acc = (k + List.length (newExpenses acc))%nat
  /\ hasUpdates acc = (0 <? List.length (newExpenses acc))%nat.
Proof.
  unfold materialize. intros H.
  apply mapRules_inv in H. destruct H as (_ & fresh & Hn & Hd & Hu & _).
  simpl in *. subst fresh. auto.
Qed.




(** ** On or ahead of UTC: the engine works on calendar days

    In a zone whose offset from UTC is between 0 and 24 hours, UTC midnight
    of a day falls in the same local day, so that the date a rule carries,
    the date of its first occurrence and the date written back agree. *)

Lemma countDue_zero today day step :
  countDue today day step = O -> today < day.
Proof.
  unfold countDue. destruct (Z.leb_spec day today); [discriminate | lia].
Qed.

Lemma countDue_bounds today day step m :
  1 <= step ->
  countDue today day step = S m ->
  day + Z.of_nat m * step <= today < day + Z.of_nat (S m) * step.
Proof.
  intros Hs. unfold countDue.
  destruct (Z.leb_spec day today) as [Hd|Hd]; [|discriminate].
  intros E. injection E as <-.
  assert (Hq : 0 <= (today - day) / step) by (apply Z.div_pos; lia).
  pose proof (Z.mul_div_le (today - day) step) as Hlo.
  pose proof (Z.mul_succ_div_gt (today - day) step) as Hhi.
  rewrite Nat2Z.inj_succ, Z2Nat.id by exact Hq.
  revert Hq Hlo Hhi. generalize ((today - day) / step). intros q Hq Hlo Hhi.
  nia.
Qed.


Lemma stepDays_le frequency : stepDays frequency <= 365.
Proof.
  unfold stepDays.
  repeat match goal with
         | |- context [if ?b then _ else _] => destruct b
         end; lia.
Qed.

Lemma due_midnight env rule day :
  newDate env (nextDueDate rule) = Some (day * msPerDay) ->
  due env rule = (day + dayShift env <=? localDay env (now env)).
Proof.
  intros H. unfold due, newDateNow. rewrite H, due_iff_localDay.
  rewrite localDay_midnight. reflexivity.
Qed.

Lemma processRule_no_fuel env today rule acc :
  processRule env 0 today rule acc = OutOfFuel.
Proof. reflexivity. Qed.

Lemma occurrences_dates env rule n day step k :
  1 <= step ->
  Forall (fun e => exists d,
              e_date e = formatDay d /\ day <= d < day + Z.of_nat n * step)
    (occurrences env rule n day step k).
Proof.
  intros Hs. revert day k.
  induction n as [|n IH]; intros day k; cbn [occurrences]; constructor.
  - exists day. split; [reflexivity|]. rewrite Nat2Z.inj_succ. nia.
  - eapply Forall_impl; [|apply IH].
    intros e (d & He & Hd). exists d. split; [exact He|].
    rewrite Nat2Z.inj_succ. nia.
Qed.

Section OnOrAheadOfUTC.

Variable env : Env.
Hypothesis east : 0 <= tz env < msPerDay.

Let today : Z := localDay env (now env).

(** The callback on calendar days. *)
Lemma processRule_east fuel rule acc day :
  isFrequency (frequency rule) = true ->
  active rule = true ->
  newDate env (nextDueDate rule) = Some (day * msPerDay) ->
  (countDue today day (stepDays (frequency rule)) < fuel)%nat ->
  processRule env fuel (newDateNow env) rule acc
  = Returns
      match countDue today day (stepDays (frequency rule)) with
      | O => (rule, acc)
      | S m =>
          (reschedule rule
             (formatDay (day + Z.of_nat (S m) * stepDays (frequency rule)))
             (formatDay today),
           {| newExpenses :=
                newExpenses acc
                ++ occurrences env rule (S m) day
                     (stepDays (frequency rule)) (drawn acc);
              hasUpdates := true;
              drawn := (drawn acc + S m)%nat |})
      end.
Proof.
  intros Hf Ha Hd Hn.
  pose proof (processRule_closed_form env fuel rule acc day Hf Ha Hd) as H.
  rewrite (dayShift_east _ east), Z.add_0_r in H. exact (H Hn).
Qed.


(** The monthly scenario: at any instant of the local day 2024-03-01 (day
    19783) the monthly rule with [nextDueDate] 2024-01-31 yields exactly
    two instances, dated 2024-01-31 and 2024-03-01, thirty days apart, and
    moves on to 2024-03-31. *)
Lemma monthly_scenario_east fuel k :
  localDay env (now env) = 19783 ->
  materialize env (3 + fuel) [monthlyRule] k
  = Returns
      ([reschedule monthlyRule "2024-03-31" "2024-03-01"],
       {| newExpenses :=
            [instantiate env monthlyRule "2024-01-31" k;
             instantiate env monthlyRule "2024-03-01" (S k)];
          hasUpdates := true;
          drawn := (k + 2)%nat |}).
Proof.
  intros Hd. unfold materialize. rewrite mapRules_cons.
  rewrite (processRule_east _ monthlyRule _ 19753);
    unfold today; rewrite ?Hd; try reflexivity.
  apply Nat.lt_succ_r, le_n_S, le_n_S, Nat.le_0_l.
Qed.


(** The cursor.  For an active rule with one of the four tags whose
    [nextDueDate] is day [day]: either the day is after the local day of
    the clock and the callback hands the rule back with nothing generated,
    or it generates at least one instance, every instance is dated from
    [day] on and before the new [nextDueDate], the new [nextDueDate] is
    after the local day of the clock, and [lastRun] is the local date of
    the clock. *)
Lemma cursor_invariant_east fuel rule acc rule' acc' day :
  isFrequency (frequency rule) = true ->
  active rule = true ->
  newDate env (nextDueDate rule) = Some (day * msPerDay) ->
  processRule env fuel (newDateNow env) rule acc = Returns (rule', acc') ->
  (today < day /\ rule' = rule /\ acc' = acc)
  \/ exists next fresh,
       nextDueDate rule' = formatDay next
       /\ today < next
       /\ lastRun rule' = Some (formatDay today)
       /\ newExpenses acc' = newExpenses acc ++ fresh
       /\ fresh <> []
       /\ Forall (fun e => exists d,
                      e_date e = formatDay d /\ day <= d < next) fresh.
Proof.
  intros Hf Ha Hd H.
  pose proof (stepDays_frequency _ Hf) as Hs.
  pose proof (processRule_east
                (Nat.max fuel (S (countDue today day (stepDays (frequency rule)))))
                rule acc day Hf Ha Hd (Nat.le_max_r _ _)) as Hc.
  rewrite (processRule_fuel_mono _ _ _ _ _ _ _ H (Nat.le_max_l _ _)) in Hc.
  clear H.
  destruct (countDue today day (stepDays (frequency rule))) as [|m] eqn:Hn.
  - apply countDue_zero in Hn.
    left. split; [lia|]. split; congruence.
  - pose proof (countDue_bounds _ _ _ _ Hs Hn) as Hb.
    set (next := day + Z.of_nat (S m) * stepDays (frequency rule)) in *.
    set (fresh := occurrences env rule (S m) day
                    (stepDays (frequency rule)) (drawn acc)) in *.
    assert (Er : rule' = reschedule rule (formatDay next) (formatDay today))
      by congruence.
    assert (Ea : newExpenses acc' = newExpenses acc ++ fresh)
      by (injection Hc as _ ->; reflexivity).
    right. exists next, fresh. rewrite Er, Ea.
    cbn [nextDueDate lastRun reschedule]. repeat split.
    + subst next. lia.
    + subst fresh. cbn [occurrences]. discriminate.
    + subst fresh next. apply (occurrences_dates _ _ _ _ _ _ Hs).
Qed.

(** The clock between 1970 and the 96th century, where a year has four
    digits. *)
Hypothesis after1970 : 0 <= now env.
Hypothesis fourDigitYears : today + 365 < farDay.

(** A rule that a run has returned is not due any more, or is inactive:
    the test of line 94 fails on it at the same instant, or line 95
    breaks. *)
Lemma processRule_leaves_settled fuel rule acc rule' acc' :
  processRule env fuel (newDateNow env) rule acc = Returns (rule', acc') ->
  due env rule' = false \/ active rule' = false.
Proof.
  intros H.
  assert (Htoday : 0 <= today).
  { unfold today, localDay. apply Z.div_pos; unfold msPerDay in *; lia. }
  assert (Hskip : due env rule = false \/ active rule = false ->
                  due env rule' = false \/ active rule' = false).
  { intros Hs. destruct fuel as [|fuel];
      [rewrite processRule_no_fuel in H; discriminate|].
    rewrite (processRule_skip _ _ _ _ Hs) in H. injection H as <- _.
    exact Hs. }
  destruct (active rule) eqn:Ha; [|apply Hskip; right; reflexivity].
  destruct (newDate env (nextDueDate rule)) as [t|] eqn:Hd;
    [|apply Hskip; left; unfold due; rewrite Hd; reflexivity].
  destruct (due env rule) eqn:Hdue; [|apply Hskip; left; reflexivity].
  destruct (isFrequency (frequency rule)) eqn:Hf.
  - pose proof (stepDays_frequency _ Hf) as Hs.
    pose proof (stepDays_le (frequency rule)) as Hs'.
    pose proof (processRule_from env
                  (Nat.max fuel
                     (S (countDue today (localDay env t)
                           (stepDays (frequency rule)))))
                  rule acc t Hf Ha Hd (Nat.le_max_r _ _)) as Hc.
    fold today in Hc.
    rewrite (processRule_fuel_mono _ _ _ _ _ _ _ H (Nat.le_max_l _ _)) in Hc.
    unfold due, newDateNow in Hdue. rewrite Hd, due_iff_localDay in Hdue.
    fold today in Hdue. apply Z.leb_le in Hdue.
    destruct (countDue today (localDay env t) (stepDays (frequency rule)))
      as [|m] eqn:Hn.
    + apply countDue_zero in Hn. lia.
    + pose proof (countDue_bounds _ _ _ _ Hs Hn) as Hb.
      set (next := localDay env t
                   + Z.of_nat (S m) * stepDays (frequency rule)) in *.
      assert (Hnext : today < next <= today + 365)
        by (subst next; rewrite Nat2Z.inj_succ in *; nia).
      assert (Er : rule' = reschedule rule (formatDay next) (formatDay today))
        by congruence.
      rewrite Er. left.
      rewrite (due_midnight _ _ next).
      * rewrite (dayShift_east _ east). apply Z.leb_gt. lia.
      * cbn [nextDueDate reschedule]. apply newDate_formatDay.
        unfold farDay in *. lia.
  - exfalso. unfold processRule, newDateNow in H. rewrite Hd in H.
    unfold due, newDateNow in Hdue. rewrite Hd in Hdue.
    rewrite (whileDue_diverges _ _ _ _ _ _ _ Hf Ha Hdue) in H.
    discriminate.
Qed.

Lemma processRule_settled fuel fuel' rule acc rule' acc' :
  processRule env fuel (newDateNow env) rule acc = Returns (rule', acc') ->
  forall a,
    processRule env (S fuel') (newDateNow env) rule' a = Returns (rule', a).
Proof.
  intros H a. apply processRule_skip.
  apply (processRule_leaves_settled _ _ _ _ _ H).
Qed.

Lemma mapRules_leaves_settled fuel rules acc us acc' :
  mapRules env fuel (newDateNow env) rules acc = Returns (us, acc') ->
  Forall (fun rule' => due env rule' = false \/ active rule' = false) us.
Proof.
  revert acc us acc'.
  induction rules as [|rule rest IH]; intros acc us acc' H.
  - injection H as <- _. constructor.
  - rewrite mapRules_cons in H.
    bind_inv H as [rule' acc1] Hp.
    bind_inv H as [rest' acc2] Hm.
    injection H as <- _.
    constructor.
    + apply (processRule_leaves_settled _ _ _ _ _ Hp).
    + apply (IH _ _ _ Hm).
Qed.

Lemma mapRules_settled fuel fuel' rules acc us acc' :
  mapRules env fuel (newDateNow env) rules acc = Returns (us, acc') ->
  forall a,
    mapRules env (S fuel') (newDateNow env) us a = Returns (us, a).
Proof.
  revert acc us acc'.
  induction rules as [|rule rest IH]; intros acc us acc' H a.
  - injection H as <- _. reflexivity.
  - rewrite mapRules_cons in H.
    bind_inv H as [rule' acc1] Hp.
    bind_inv H as [rest' acc2] Hm.
    injection H as <- _.
    rewrite mapRules_cons.
    rewrite (processRule_settled _ fuel' _ _ _ _ Hp).
    cbn [bind]. rewrite (IH _ _ _ Hm). reflexivity.
Qed.

(** Idempotence.  A second run at the same instant on the rules a first
    run returned generates nothing, sets no flag, draws no identifier and
    returns the rules as they are. *)
Lemma idempotent_east fuel fuel' rules k k' r :
  materialize env fuel rules k = Returns r ->
  materialize env (S fuel') (updatedRules r) k'
  = Returns (updatedRules r,
             {| newExpenses := []; hasUpdates := false; drawn := k' |}).
Proof.
  intros H. destruct r as [us acc]. unfold materialize in *.
  apply (mapRules_settled _ fuel' _ _ _ _ H).
Qed.

End OnOrAheadOfUTC.

Lemma envUTC_east : 0 <= tz envUTC < msPerDay.
Proof. unfold envUTC, msPerDay; simpl; lia. Qed.

Lemma idempotent_east_at_utc :
  exists r,
    materialize envUTC 5 [dailyRule; frozenRule] 0 = Returns r
    /\ materialize envUTC 1 (updatedRules r) 3
       = Returns (updatedRules r,
                  {| newExpenses := []; hasUpdates := false; drawn := 3 |}).
Proof.
  eexists. split; [vm_compute; reflexivity|].
  apply (idempotent_east envUTC envUTC_east) with (fuel := 5%nat) (k := 0%nat)
    (rules := [dailyRule; frozenRule]).
  - unfold envUTC, msPerDay; simpl; lia.
  - vm_compute. reflexivity.
  - vm_compute. reflexivity.
Defined.

(** ** The daily scenario (C2) *)



(** ** Behind UTC: the date of a rule is read a day early

    [new Date] reads the date of a rule as UTC midnight, while [isToday]
    and [format] work in local time.  In a zone behind UTC, UTC midnight of
    a day falls on the evening of the local day before: the first
    occurrence of a rule is dated a day before its [nextDueDate], and a
    rule is due a day before the date it carries. *)

Section BehindUTC.

Variable env : Env.
Hypothesis west : - msPerDay <= tz env < 0.

Let today : Z := localDay env (now env).

(** A date read by [new Date] and written back by [format] comes out as
    the day before. *)
Lemma read_back_a_day_early day :
  0 <= day < farDay ->
  format env (newDate env (formatDay day)) = Some (formatDay (day - 1)).
Proof.
  intros H. rewrite (newDate_formatDay env _ H).
  unfold format, formatTime. cbn [option_map].
  rewrite localDay_midnight, (dayShift_west _ west). reflexivity.
Qed.



End BehindUTC.

(** C1 -- Idempotence, at local noon of 2024-06-01 five hours behind UTC.
    The first run on the daily rule due on 2024-06-01 returns the rule
    with [nextDueDate] 2024-06-02; the second run, at the same instant on
    the rules the first returned, generates one more instance, dated
    2024-06-01 again, and returns the same rules, so that every further
    run does the same. *)
Theorem second_run_generates_again_west :
  exists r1 r2,
    materialize envWest 5 [dailyRule] 0 = Returns r1
    /\ map nextDueDate (updatedRules r1) = ["2024-06-02"%string]
    /\ materialize envWest 5 (updatedRules r1) (drawn (snd r1)) = Returns r2
    /\ generatedCount r2 = 1%nat
    /\ map e_date (generated r2) = ["2024-06-01"%string]
    /\ updatedRules r2 = updatedRules r1.
Proof.
  eexists. eexists. split; [vm_compute; reflexivity|].
  split; [reflexivity|].
  split; [vm_compute; reflexivity|].
  repeat split.
Qed.

(** C5 -- Due or overdue, at local noon of 2024-06-01 five hours behind
    UTC.  The active rule whose [nextDueDate] is the local date of the
    clock, 2024-06-01, yields two instances, dated 2024-05-31 and
    2024-06-01, not one; and the active rule whose [nextDueDate],
    2024-06-02, is strictly after that date still yields an instance. *)
Theorem due_today_yields_two_west :
  formatTime envWest (now envWest) = "2024-06-01"%string
  /\ (exists r,
         materialize envWest 5 [dailyRule] 0 = Returns r
         /\ nextDueDate dailyRule = "2024-06-01"%string
         /\ map e_date (generated r) = ["2024-05-31"; "2024-06-01"]%string)
  /\ (exists r,
         materialize envWest 5 [tomorrowRule] 0 = Returns r
         /\ nextDueDate tomorrowRule = "2024-06-02"%string
         /\ map e_date (generated r) = ["2024-06-01"%string]).
Proof.
  split; [reflexivity|].
  split; eexists; (split; [vm_compute; reflexivity|]); split; reflexivity.
Qed.

(** C6 -- Monthly drift, at local noon of 2024-03-01 five hours behind
    UTC.  The monthly rule with [nextDueDate] 2024-01-31 yields instances
    dated 2024-01-30 and 2024-02-29, thirty days apart. *)
Theorem monthly_scenario_west :
  formatTime envWestMarch (now envWestMarch) = "2024-03-01"%string
  /\ exists r,
       materialize envWestMarch 5 [monthlyRule] 0 = Returns r
       /\ map e_date (generated r) = ["2024-01-30"; "2024-02-29"]%string
       /\ map nextDueDate (updatedRules r) = ["2024-03-30"%string].
Proof.
  split; [reflexivity|].
  eexists. split; [vm_compute; reflexivity|]. split; reflexivity.
Qed.

(** C9 -- Cursor invariant, at local noon of 2024-06-01 five hours behind
    UTC.  The weekly rule with [nextDueDate] 2024-05-25 yields instances
    dated 2024-05-24 and 2024-05-31: the first is dated before the old
    [nextDueDate].  The rule whose [nextDueDate] is 2024-06-02 yields an
    instance although that date is after the date of the clock, and keeps
    its [nextDueDate]. *)
Theorem instance_before_cursor_west :
  (exists r,
      materialize envWest 5 [weeklyRule] 0 = Returns r
      /\ nextDueDate weeklyRule = "2024-05-25"%string
      /\ map e_date (generated r) = ["2024-05-24"; "2024-05-31"]%string
      /\ map nextDueDate (updatedRules r) = ["2024-06-07"%string]
      /\ isBefore (newDate envWest "2024-05-24") (newDate envWest "2024-05-25")
         = true)
  /\ (exists r,
         materialize envWest 5 [tomorrowRule] 0 = Returns r
         /\ generatedCount r = 1%nat
         /\ map nextDueDate (updatedRules r) = [nextDueDate tomorrowRule]).
Proof.
  split; eexists; (split; [vm_compute; reflexivity|]); repeat split.
Qed.

(** ** JSON images *)

Lemma jsonNumber_idem n : jsonNumber (jsonNumber n) = jsonNumber n.
Proof.
  destruct n as [f|]; [|reflexivity]. cbn [jsonNumber].
  destruct (is_nan f || is_infinity f) eqn:Hfin; [reflexivity|].
  destruct (is_zero f) eqn:Hz; [reflexivity|].
  cbn [jsonNumber]. rewrite Hfin, Hz. reflexivity.
Qed.

Lemma jsonTemplate_idem t : jsonTemplate (jsonTemplate t) = jsonTemplate t.
Proof. unfold jsonTemplate. cbn. rewrite jsonNumber_idem. reflexivity. Qed.

Lemma jsonExpense_idem e : jsonExpense (jsonExpense e) = jsonExpense e.
Proof. unfold jsonExpense. cbn. rewrite jsonNumber_idem. reflexivity. Qed.

Lemma jsonRule_idem rule : jsonRule (jsonRule rule) = jsonRule rule.
Proof. unfold jsonRule. cbn. rewrite jsonTemplate_idem. reflexivity. Qed.

Lemma jsonField_idem {A : Type} (f : Field A) :
  jsonField (jsonField f) = jsonField f.
Proof. destruct f; reflexivity. Qed.

Lemma jsonNumberField_idem f :
  jsonNumberField (jsonNumberField f) = jsonNumberField f.
Proof. destruct f; cbn; rewrite ?jsonNumber_idem; reflexivity. Qed.

Lemma jsonUser_idem u : jsonUser (jsonUser u) = jsonUser u.
Proof.
  unfold jsonUser. cbn.
  rewrite !jsonField_idem, !jsonNumberField_idem. reflexivity.
Qed.

(** An expense whose amount is an image is its own image. *)
Lemma jsonExpense_fixed e :
  jsonNumber (e_amount e) = e_amount e -> jsonExpense e = e.
Proof. intros H. destruct e. unfold jsonExpense. cbn in *. rewrite H. reflexivity. Qed.

(** What is read from the store is an image: writing it back and reading
    it again gives the same. *)
Lemma getExpenses_image ls :
  map jsonExpense (StorageService.getExpenses ls)
  = StorageService.getExpenses ls.
Proof.
  unfold StorageService.getExpenses.
  destruct (expensesItem ls) as [[v]|]; [|reflexivity].
  cbn. rewrite map_map. apply map_ext. intros e. apply jsonExpense_idem.
Qed.

Lemma getRecurringRules_image ls :
  map jsonRule (StorageService.getRecurringRules ls)
  = StorageService.getRecurringRules ls.
Proof.
  unfold StorageService.getRecurringRules.
  destruct (recurringItem ls) as [[v]|]; [|reflexivity].
  cbn. rewrite map_map. apply map_ext. intros e. apply jsonRule_idem.
Qed.

Lemma getUser_image ls u :
  StorageService.getUser ls = Some u -> jsonUser u = u.
Proof.
  unfold StorageService.getUser.
  destruct (userItem ls) as [[v]|]; [|discriminate].
  cbn. intros E. injection E as <-. apply jsonUser_idem.
Qed.

Lemma jsonExpense_filter ident (l : list Expense) :
  map jsonExpense (filter (fun e => negb (e_id e =? ident)%string) l)
  = filter (fun e => negb (e_id e =? ident)%string) (map jsonExpense l).
Proof.
  induction l as [|e l IH]; [reflexivity|].
  cbn. destruct (negb (e_id e =? ident)%string); cbn; rewrite IH;
    reflexivity.
Qed.

Lemma jsonExpense_update (u : Expense) (l : list Expense) :
  map jsonExpense
    (map (fun e => if (e_id e =? e_id u)%string then u else e) l)
  = map (fun e => if (e_id e =? e_id u)%string then jsonExpense u else e)
      (map jsonExpense l).
Proof.
  induction l as [|e l IH]; [reflexivity|].
  cbn. rewrite IH. destruct (e_id e =? e_id u)%string; reflexivity.
Qed.

(** ** The storage service: expenses *)

(** What is read after each of the three writes. *)
Lemma getExpenses_addExpense added ls :
  StorageService.getExpenses (StorageService.addExpense added ls)
  = jsonExpense added :: StorageService.getExpenses ls.
Proof.
  unfold StorageService.addExpense. cbn. rewrite getExpenses_image.
  reflexivity.
Qed.

Lemma getExpenses_updateExpense (u : Expense) ls :
  StorageService.getExpenses (StorageService.updateExpense u ls)
  = map (fun e => if (e_id e =? e_id u)%string then jsonExpense u else e)
      (StorageService.getExpenses ls).
Proof.
  unfold StorageService.updateExpense. cbn.
  rewrite jsonExpense_update, getExpenses_image. reflexivity.
Qed.

Lemma getExpenses_deleteExpense ident ls :
  StorageService.getExpenses (StorageService.deleteExpense ident ls)
  = filter (fun e => negb (e_id e =? ident)%string)
      (StorageService.getExpenses ls).
Proof.
  unfold StorageService.deleteExpense. cbn.
  rewrite jsonExpense_filter, getExpenses_image. reflexivity.
Qed.

Lemma filter_other_ids ident (l : list Expense) :
  Forall (fun e => e_id e <> ident) l ->
  filter (fun e => negb (e_id e =? ident)%string) l = l.
Proof.
  induction 1 as [|e l He _ IH]; [reflexivity|].
  simpl. destruct (String.eqb_spec (e_id e) ident) as [E|_]; [contradiction|].
  simpl. rewrite IH. reflexivity.
Qed.

Lemma filter_twice ident (l : list Expense) :
  filter (fun e => negb (e_id e =? ident)%string)
    (filter (fun e => negb (e_id e =? ident)%string) l)
  = filter (fun e => negb (e_id e =? ident)%string) l.
Proof.
  apply filter_other_ids, Forall_forall. intros e He.
  apply filter_In in He. destruct He as (_ & He).
  destruct (String.eqb_spec (e_id e) ident); [discriminate | assumption].
Qed.

Lemma map_other_ids (u v : Expense) (l : list Expense) :
  Forall (fun e => e_id e <> e_id u) l ->
  map (fun e => if (e_id e =? e_id u)%string then v else e) l = l.
Proof.
  induction 1 as [|e l He _ IH]; [reflexivity|].
  simpl. destruct (String.eqb_spec (e_id e) (e_id u)) as [E|_];
    [contradiction|].
  rewrite IH. reflexivity.
Qed.

Lemma map_update_ids (u v : Expense) (l : list Expense) :
  e_id v = e_id u ->
  map e_id (map (fun e => if (e_id e =? e_id u)%string then v else e) l)
  = map e_id l.
Proof.
  intros Hv. induction l as [|e l IH]; [reflexivity|].
  simpl. rewrite IH.
  destruct (String.eqb_spec (e_id e) (e_id u)) as [E|_];
    [rewrite Hv, E|]; reflexivity.
Qed.

(** [deleteExpense] removes every stored expense with the identifier
    given and nothing else: an expense is stored afterwards exactly when
    it was stored before and has another identifier; the expenses kept
    stay in their order; deleting again changes nothing; and the user,
    the session and the rules are not touched. *)
Theorem deleteExpense_removes_exactly ident ls :
  let ls' := StorageService.deleteExpense ident ls in
  (forall e, In e (StorageService.getExpenses ls')
             <-> In e (StorageService.getExpenses ls) /\ e_id e <> ident)
  /\ StorageService.getExpenses ls'
     = filter (fun e => negb (e_id e =? ident)%string)
         (StorageService.getExpenses ls)
  /\ StorageService.deleteExpense ident ls' = ls'
  /\ StorageService.getUser ls' = StorageService.getUser ls
  /\ StorageService.isAuthenticated ls' = StorageService.isAuthenticated ls
  /\ StorageService.getRecurringRules ls'
     = StorageService.getRecurringRules ls.
Proof.
  cbv zeta.
  split; [|split; [apply getExpenses_deleteExpense
                  |split; [|repeat split]]].
  - intros e. rewrite getExpenses_deleteExpense, filter_In.
    split; intros (Hin & He); split; try exact Hin.
    + destruct (String.eqb_spec (e_id e) ident); [discriminate | assumption].
    + destruct (String.eqb_spec (e_id e) ident); [contradiction | reflexivity].
  - unfold StorageService.deleteExpense at 1. cbv zeta.
    rewrite getExpenses_deleteExpense, filter_twice. reflexivity.
Qed.

(** An expense added under an identifier that no stored expense has, and
    then deleted by that identifier, leaves the stored list as it was. *)
Theorem add_then_delete_expense (added : Expense) ls :
  Forall (fun e => e_id e <> e_id added) (StorageService.getExpenses ls) ->
  StorageService.getExpenses
    (StorageService.deleteExpense (e_id added)
       (StorageService.addExpense added ls))
  = StorageService.getExpenses ls.
Proof.
  intros H. rewrite getExpenses_deleteExpense, getExpenses_addExpense.
  cbn. rewrite String.eqb_refl. cbn. apply filter_other_ids, H.
Qed.

Lemma add_then_delete_expense_witness :
  StorageService.getExpenses
    (StorageService.deleteExpense (e_id lunch)
       (StorageService.addExpense lunch sampleStorage))
  = StorageService.getExpenses sampleStorage.
Proof.
  apply (add_then_delete_expense lunch sampleStorage).
  repeat constructor. discriminate.
Defined.

(** [updateExpense] never changes how many expenses are stored nor the
    sequence of their identifiers; afterwards every stored expense with
    the identifier of the update is the update as JSON hands it back; and
    when no stored expense has that identifier the list stays as it was:
    the update is dropped, not added. *)
Theorem updateExpense_keeps_ids (u : Expense) ls :
  let ls' := StorageService.updateExpense u ls in
  map e_id (StorageService.getExpenses ls')
  = map e_id (StorageService.getExpenses ls)
  /\ List.length (StorageService.getExpenses ls')
     = List.length (StorageService.getExpenses ls)
  /\ (forall e, In e (StorageService.getExpenses ls') ->
                e_id e = e_id u -> e = jsonExpense u)
  /\ (Forall (fun e => e_id e <> e_id u) (StorageService.getExpenses ls) ->
      StorageService.getExpenses ls' = StorageService.getExpenses ls).
Proof.
  cbv zeta. rewrite getExpenses_updateExpense.
  split; [apply map_update_ids; reflexivity|].
  split; [apply length_map|]. split.
  - intros e He Hid. apply in_map_iff in He. destruct He as (x & Hx & _).
    destruct (String.eqb_spec (e_id x) (e_id u)) as [E|E];
      [symmetry; exact Hx|].
    subst x. contradiction.
  - apply map_other_ids.
Qed.

(** The identifiers stay distinct: [deleteExpense] and [updateExpense]
    keep them so, and [addExpense] does when the identifier added is not
    stored yet. *)
Theorem distinct_ids_kept ls :
  NoDup (map e_id (StorageService.getExpenses ls)) ->
  (forall ident,
      NoDup (map e_id (StorageService.getExpenses
                         (StorageService.deleteExpense ident ls))))
  /\ (forall u,
         NoDup (map e_id (StorageService.getExpenses
                            (StorageService.updateExpense u ls))))
  /\ (forall added,
         ~ In (e_id added) (map e_id (StorageService.getExpenses ls)) ->
         NoDup (map e_id (StorageService.getExpenses
                            (StorageService.addExpense added ls)))).
Proof.
  intros H. split; [|split].
  - intros ident. rewrite getExpenses_deleteExpense.
    induction (StorageService.getExpenses ls) as [|e l IH]; [constructor|].
    simpl in H. inversion H as [|? ? Hnot Hrest]; subst. simpl.
    destruct (negb (e_id e =? ident)%string); [|apply IH, Hrest].
    simpl. constructor; [|apply IH, Hrest].
    intros Hin. apply Hnot. apply in_map_iff in Hin.
    destruct Hin as (x & Hx & Hin). apply filter_In in Hin.
    apply in_map_iff. exists x. split; [exact Hx | apply Hin].
  - intros u. rewrite getExpenses_updateExpense, map_update_ids;
      [exact H | reflexivity].
  - intros added Hnew. rewrite getExpenses_addExpense. cbn.
    constructor; assumption.
Qed.

Lemma distinct_ids_kept_witness :
  NoDup (map e_id (StorageService.getExpenses
                     (StorageService.addExpense lunch sampleStorage))).
Proof.
  apply (proj2 (proj2 (distinct_ids_kept sampleStorage
                         ltac:(repeat constructor; intros [])))).
  simpl. intros [E|[]]. discriminate.
Defined.

(** ** The storage service: the account *)

Lemma optionEqb_refl o : optionEqb o o = true.
Proof. destruct o as [x|]; [apply String.eqb_refl | reflexivity]. Qed.

Lemma optionEqb_eq a b : optionEqb a b = true <-> a = b.
Proof.
  destruct a as [x|], b as [y|]; simpl; split; intros H;
    try discriminate; try reflexivity.
  - apply String.eqb_eq in H. congruence.
  - injection H as ->. apply String.eqb_refl.
Qed.

Lemma readField_json {A : Type} (f : Field A) :
  readField (jsonField f) = readField f.
Proof. destruct f; reflexivity. Qed.

(** [signup] succeeds exactly when no user is stored.  When it fails the
    storage is left as it was: a stored account is never overwritten.
    When it succeeds the user is stored, the session is open, and the
    expenses and rules are as before. *)
Theorem signup_never_overwrites user ls :
  (fst (StorageService.signup user ls) = true
   <-> StorageService.getUser ls = None)
  /\ (fst (StorageService.signup user ls) = false ->
      snd (StorageService.signup user ls) = ls)
  /\ (fst (StorageService.signup user ls) = true ->
      let ls' := snd (StorageService.signup user ls) in
      StorageService.getUser ls' = Some (jsonUser user)
      /\ StorageService.isAuthenticated ls' = true
      /\ StorageService.getExpenses ls' = StorageService.getExpenses ls
      /\ StorageService.getRecurringRules ls'
         = StorageService.getRecurringRules ls).
Proof.
  unfold StorageService.signup.
  destruct (StorageService.getUser ls) as [existing|]; cbn.
  - repeat split; try discriminate; auto.
  - repeat split; auto; discriminate.
Qed.

(** [login] succeeds exactly when a user is stored whose email is the one
    given and whose password, if any, is the one given, if any.  A failed
    login changes nothing; a successful one opens the session and changes
    nothing else. *)
Theorem login_checks_credentials email password ls :
  (fst (StorageService.login email password ls) = true
   <-> exists stored,
         StorageService.getUser ls = Some stored
         /\ u_email stored = email
         /\ readField (u_password stored) = password)
  /\ (fst (StorageService.login email password ls) = false ->
      snd (StorageService.login email password ls) = ls)
  /\ (fst (StorageService.login email password ls) = true ->
      let ls' := snd (StorageService.login email password ls) in
      StorageService.isAuthenticated ls' = true
      /\ StorageService.getUser ls' = StorageService.getUser ls
      /\ StorageService.getExpenses ls' = StorageService.getExpenses ls
      /\ StorageService.getRecurringRules ls'
         = StorageService.getRecurringRules ls).
Proof.
  unfold StorageService.login.
  destruct (StorageService.getUser ls) as [stored|] eqn:Hu; cbn.
  - destruct (String.eqb_spec (u_email stored) email) as [He|He]; cbn.
    + destruct (optionEqb (readField (u_password stored)) password) eqn:Hp;
        cbn.
      * apply optionEqb_eq in Hp. repeat split; auto; try discriminate.
        intros _. exists stored. auto.
      * repeat split; auto; try discriminate.
        intros (s & Hs & _ & Hp'). injection Hs as <-.
        apply optionEqb_eq in Hp'. congruence.
    + repeat split; auto; try discriminate.
      intros (s & Hs & He' & _). injection Hs as <-. contradiction.
  - repeat split; auto; try discriminate.
    intros (s & Hs & _). discriminate.
Qed.

(** Signing up, logging out and logging in again with the same email and
    password: the logout closes the session and keeps the account and all
    data, and the login opens the session again. *)
Theorem signup_logout_login user ls :
  StorageService.getUser ls = None ->
  let ls1 := snd (StorageService.signup user ls) in
  let ls2 := StorageService.logout ls1 in
  let r := StorageService.login (u_email user)
             (readField (u_password user)) ls2 in
  StorageService.isAuthenticated ls1 = true
  /\ StorageService.isAuthenticated ls2 = false
  /\ StorageService.getUser ls2 = Some (jsonUser user)
  /\ StorageService.getExpenses ls2 = StorageService.getExpenses ls
  /\ StorageService.getRecurringRules ls2
     = StorageService.getRecurringRules ls
  /\ fst r = true
  /\ snd r = ls1.
Proof.
  intros H. cbv zeta. unfold StorageService.signup. rewrite H. cbn.
  unfold StorageService.login. cbn.
  rewrite String.eqb_refl, readField_json, optionEqb_refl. cbn.
  repeat split.
Qed.

Lemma signup_logout_login_witness :
  fst (StorageService.login (u_email sampleUser)
         (readField (u_password sampleUser))
         (StorageService.logout
            (snd (StorageService.signup sampleUser emptyStorage))))
  = true.
Proof.
  apply (signup_logout_login sampleUser emptyStorage).
  reflexivity.
Defined.



(** ** The component: what is shown and what is stored *)

(** The amount "-0" passes the test of line 390 and [parseFloat] gives the
    negative zero: the state then shows the negative zero where the store
    holds 0, so what is shown is not what is stored, but its image. *)
Example negative_zero_is_stored_as_zero :
  let a := handleSubmit sampleNumeric envUTC zeroForm ruledApp in
  map e_amount (a_expenses a) = [Num neg_zero; Num 10]
  /\ map e_amount (StorageService.getExpenses (a_storage a))
     = [Num 0; Num 10].
Proof. split; reflexivity. Qed.

Lemma storedImage_frame a a' :
  a_expenses a' = a_expenses a ->
  StorageService.getExpenses (a_storage a')
  = StorageService.getExpenses (a_storage a) ->
  storedImage a -> storedImage a'.
Proof. unfold storedImage. intros -> ->. exact (fun H => H). Qed.

Lemma saveExpense_storedImage saved a :
  storedImage a -> storedImage (saveExpense saved a).
Proof.
  unfold storedImage, saveExpense. intros H.
  destruct (a_editingExpense a);
    cbn -[StorageService.getExpenses StorageService.addExpense
          StorageService.updateExpense].
  - rewrite getExpenses_updateExpense, H, jsonExpense_update. reflexivity.
  - rewrite getExpenses_addExpense, H. reflexivity.
Qed.

Lemma saveRecurringRule_expenses rule a :
  a_expenses (saveRecurringRule rule a) = a_expenses a
  /\ StorageService.getExpenses (a_storage (saveRecurringRule rule a))
     = StorageService.getExpenses (a_storage a).
Proof. split; reflexivity. Qed.

Lemma handleSubmit_storedImage js env f a :
  storedImage a -> storedImage (handleSubmit js env f a).
Proof.
  intros H. unfold handleSubmit.
  destruct ((f_amount f =? "")%string || numberIsNaN js (f_amount f));
    [exact H|].
  destruct (a_editingExpense a) as [e|] eqn:He; cbv beta iota zeta.
  - match goal with
    | |- storedImage (closeModal ?b) =>
        apply (storedImage_frame b); [reflexivity | reflexivity |]
    end.
    apply saveExpense_storedImage, H.
  - assert (Hs : forall saved,
               storedImage
                 (saveExpense saved (AppState.setUuids (S (a_uuids a)) a))).
    { intros saved. apply saveExpense_storedImage.
      apply (storedImage_frame a); [reflexivity | reflexivity | exact H]. }
    destruct (f_isRecurring f).
    + match goal with
      | |- storedImage (closeModal (saveRecurringRule _ (AppState.setUuids _ ?b))) =>
          apply (storedImage_frame b); [reflexivity | reflexivity |]
      end.
      apply Hs.
    + match goal with
      | |- storedImage (closeModal ?b) =>
          apply (storedImage_frame b); [reflexivity | reflexivity |]
      end.
      apply Hs.
Qed.

Lemma act_storedImage js env x a :
  storedImage a -> storedImage (act js env x a).
Proof.
  intros H. destruct x as [| |e|r|i c|c|e|t| |f]; cbn [act].
  - exact H.
  - exact H.
  - apply saveExpense_storedImage, H.
  - exact H.
  - destruct c; [|exact H]. unfold storedImage, deleteExpense in *.
    cbn -[StorageService.getExpenses StorageService.deleteExpense].
    rewrite getExpenses_deleteExpense, H, jsonExpense_filter. reflexivity.
  - destruct c; [|exact H]. reflexivity.
  - exact H.
  - exact H.
  - exact H.
  - apply handleSubmit_storedImage, H.
Qed.

(** Whatever the handlers are called with, in whatever order, what is
    stored stays the image of what is shown: the expenses read from the
    store are the JSON images of the expenses of the state, one for one
    and in order.  So the two agree in everything but the amounts that
    JSON does not keep (the negative zero, NaN and the infinities). *)
Theorem stored_is_image_of_shown js env xs a :
  storedImage a -> storedImage (actAll js env xs a).
Proof.
  unfold actAll. revert a.
  induction xs as [|x xs IH]; intros a H; [exact H|].
  simpl. apply IH, act_storedImage, H.
Qed.

Lemma stored_is_image_of_shown_witness :
  storedImage (actAll sampleNumeric envUTC
                 [DoSubmit zeroForm; DoSubmit sampleForm; DoOpenEdit dinner;
                  DoSubmit zeroForm; DoDeleteExpense "id-0" true]
                 ruledApp).
Proof.
  apply (stored_is_image_of_shown sampleNumeric envUTC _ ruledApp).
  reflexivity.
Defined.

(** ** The effect run at mounting *)

Lemma map_fixed_In {A : Type} (f : A -> A) (l : list A) :
  map f l = l -> forall x, In x l -> f x = x.
Proof.
  induction l as [|y l IH]; intros H x Hin; [contradiction|].
  cbn in H. injection H as Hy Hl.
  destruct Hin as [<-|Hin]; [exact Hy | apply IH; assumption].
Qed.

(** From rules that are images, as the rules read from the store are, the
    engine generates expenses that are images and returns rules that are
    images. *)
Lemma generated_are_images env fuel rules k us acc :
  map jsonRule rules = rules ->
  materialize env fuel rules k = Returns (us, acc) ->
  map jsonExpense (newExpenses acc) = newExpenses acc
  /\ map jsonRule us = us.
Proof.
  intros Hr H. unfold materialize in H.
  pose proof (map_fixed_In _ _ Hr) as Hfix.
  apply mapRules_inv in H.
  destruct H as (Hid & fresh & Hn & _ & _ & Hall).
  cbn in Hn. rewrite Hn. clear Hn. split.
  - induction Hall as [|e l (rule & Hin & Hamt & _) _ IH]; [reflexivity|].
    cbn. rewrite IH. f_equal. apply jsonExpense_fixed. rewrite Hamt.
    pose proof (Hfix _ Hin) as E.
    apply (f_equal expenseTemplate) in E. apply (f_equal t_amount) in E.
    exact E.
  - clear Hall Hr. induction Hid as [|rule u rules us Hs _ IH];
      [reflexivity|].
    cbn. rewrite IH by (intros x Hx; apply Hfix; right; exact Hx).
    f_equal. destruct Hs as (_ & _ & _ & Ht).
    pose proof (Hfix rule (or_introl eq_refl)) as E.
    apply (f_equal expenseTemplate) in E. cbn in E.
    destruct u. unfold jsonRule. cbn in *. rewrite Ht, E. reflexivity.
Qed.

Lemma loadUser_frame a :
  a_storage (loadUser a) = a_storage a
  /\ a_uuids (loadUser a) = a_uuids a
  /\ a_toast (loadUser a) = a_toast a
  /\ a_expenses (loadUser a) = a_expenses a.
Proof.
  unfold loadUser. destruct (StorageService.isAuthenticated (a_storage a));
    [destruct (StorageService.getUser (a_storage a))|]; repeat split.
Qed.

(** The effect returns when the engine does on the stored rules. *)
Lemma mount_returns env fuel a updated acc :
  materialize env fuel
    (StorageService.getRecurringRules (a_storage a)) (a_uuids a)
  = Returns (updated, acc) ->
  exists a',
    mount env fuel a = Returns a'
    /\ a_expenses a'
       = newExpenses acc ++ StorageService.getExpenses (a_storage a)
    /\ a_uuids a' = drawn acc
    /\ a_user a' = a_user (loadUser a)
    /\ a_loading a' = false
    /\ (newExpenses acc <> [] ->
        a_storage a'
        = StorageService.setExpensesItem
            (Some (JSON.stringify
                     (newExpenses acc
                      ++ StorageService.getExpenses (a_storage a))))
            (StorageService.setRecurringItem
               (Some (JSON.stringify updated)) (a_storage a))
        /\ a_toast a'
           = Some {| message := countMessage (List.length (newExpenses acc));
                     success := true |})
    /\ (newExpenses acc = [] ->
        a_storage a' = a_storage a /\ a_toast a' = a_toast a).
Proof.
  intros Hm. destruct (loadUser_frame a) as (Hst & Hid & Hto & _).
  destruct (materialize_acc _ _ _ _ _ _ Hm) as (Hd & Hu).
  unfold mount, processRecurringExpenses.
  change (getRecurringRules (worldOf (AppState.setExpenses
            (StorageService.getExpenses (a_storage (loadUser a)))
            (loadUser a))))
    with (StorageService.getRecurringRules (a_storage (loadUser a))).
  change (uuids (worldOf (AppState.setExpenses
            (StorageService.getExpenses (a_storage (loadUser a)))
            (loadUser a))))
    with (a_uuids (loadUser a)).
  rewrite Hst, Hid, Hm. cbn [bind]. rewrite Hu.
  destruct (newExpenses acc) as [|e l] eqn:Hnew.
  - change (0 <? List.length (@nil Expense))%nat with false. cbv iota.
    cbn [bind]. rewrite Nat.ltb_irrefl. eexists. split; [reflexivity|].
    cbn -[StorageService.getExpenses].
    rewrite Hst, Hto.
    repeat split; try reflexivity; try (exfalso; congruence).
    destruct (a_storage a); reflexivity.
  - change (0 <? List.length (e :: l))%nat with true. cbv iota.
    cbn [bind].
    match goal with
    | |- context [(?x <? ?y)%nat] =>
        assert (Hlt : (x <? y)%nat = true)
          by (apply Nat.ltb_lt; cbn; rewrite length_app; lia);
        rewrite Hlt
    end.
    eexists. split; [reflexivity|].
    cbn -[StorageService.getExpenses]. rewrite Hst.
    repeat split; try reflexivity; exfalso; congruence.
Qed.

Lemma mount_inv env fuel a a' :
  mount env fuel a = Returns a' ->
  exists updated acc,
    materialize env fuel
      (StorageService.getRecurringRules (a_storage a)) (a_uuids a)
    = Returns (updated, acc).
Proof.
  destruct (loadUser_frame a) as (Hst & Hid & _).
  unfold mount, processRecurringExpenses.
  change (getRecurringRules (worldOf (AppState.setExpenses
            (StorageService.getExpenses (a_storage (loadUser a)))
            (loadUser a))))
    with (StorageService.getRecurringRules (a_storage (loadUser a))).
  change (uuids (worldOf (AppState.setExpenses
            (StorageService.getExpenses (a_storage (loadUser a)))
            (loadUser a))))
    with (a_uuids (loadUser a)).
  rewrite Hst, Hid.
  destruct (materialize env fuel
              (StorageService.getRecurringRules (a_storage a)) (a_uuids a))
    as [[updated acc]| |]; cbn [bind]; intros H;
    [eauto | discriminate | discriminate].
Qed.

(** What is read from the store after the effect has written to it. *)
Lemma mount_stored env fuel a updated acc a' :
  materialize env fuel
    (StorageService.getRecurringRules (a_storage a)) (a_uuids a)
  = Returns (updated, acc) ->
  mount env fuel a = Returns a' ->
  StorageService.getExpenses (a_storage a') = a_expenses a'
  /\ (newExpenses acc <> [] ->
      StorageService.getRecurringRules (a_storage a') = updated)
  /\ sessionItem (a_storage a') = sessionItem (a_storage a)
  /\ userItem (a_storage a') = userItem (a_storage a).
Proof.
  intros Hm H.
  destruct (mount_returns _ _ _ _ _ Hm)
    as (a'' & Hmount & Hshown & _ & _ & _ & Hgen & Hnone).
  assert (E : a'' = a') by congruence. subst a''.
  destruct (generated_are_images _ _ _ _ _ _
              (getRecurringRules_image _) Hm) as (Himg & Hrules).
  destruct (newExpenses acc) as [|e l] eqn:Hnew.
  - destruct (Hnone eq_refl) as (Hst & _). rewrite Hst, Hshown.
    repeat split. intros C. contradiction.
  - destruct Hgen as (Hst & _); [discriminate|]. rewrite Hst, Hshown.
    split; [|split; [intros _; exact Hrules | split; reflexivity]].
    transitivity (map jsonExpense
                    ((e :: l) ++ StorageService.getExpenses (a_storage a)));
      [reflexivity|].
    rewrite map_app, Himg, getExpenses_image. reflexivity.
Qed.

(** The effect run at mounting.  When it returns, the expenses shown are
    the expenses stored (and so what is stored is the image of what is
    shown), and they are the instances the engine generated from the
    stored rules followed by the expenses that were stored; the stored
    user is taken into the state exactly when a session is open; when
    nothing was generated the storage is as it was. *)
Theorem mount_loads_and_generates env fuel a a' :
  mount env fuel a = Returns a' ->
  inSync a'
  /\ storedImage a'
  /\ a_loading a' = false
  /\ a_user a'
     = (if StorageService.isAuthenticated (a_storage a)
        then match StorageService.getUser (a_storage a) with
             | Some loadedUser => Some loadedUser
             | None => a_user a
             end
        else a_user a)
  /\ exists updated acc,
       materialize env fuel
         (StorageService.getRecurringRules (a_storage a)) (a_uuids a)
       = Returns (updated, acc)
       /\ a_expenses a'
          = newExpenses acc ++ StorageService.getExpenses (a_storage a)
       /\ a_uuids a' = (a_uuids a + List.length (newExpenses acc))%nat
       /\ (newExpenses acc = [] -> a_storage a' = a_storage a)
       /\ (newExpenses acc <> [] ->
           StorageService.getRecurringRules (a_storage a') = updated).
Proof.
  intros H.
  destruct (mount_inv _ _ _ _ H) as (updated & acc & Hm).
  destruct (mount_returns _ _ _ _ _ Hm)
    as (a'' & Hmount & Hshown & Hids & Huser & Hload & _ & Hnone).
  assert (E : a'' = a') by congruence. subst a''.
  destruct (mount_stored _ _ _ _ _ _ Hm H) as (Hsync & Hrules & _).
  destruct (materialize_acc _ _ _ _ _ _ Hm) as (Hd & _).
  split; [symmetry; exact Hsync|].
  split; [unfold storedImage; rewrite <- Hsync; symmetry;
          apply getExpenses_image|].
  split; [exact Hload|]. split.
  - rewrite Huser. unfold loadUser.
    destruct (StorageService.isAuthenticated (a_storage a));
      [destruct (StorageService.getUser (a_storage a))|]; reflexivity.
  - exists updated, acc. split; [exact Hm|]. split; [exact Hshown|].
    split; [rewrite Hids; exact Hd|].
    split; [intros Hn; apply (Hnone Hn) | exact Hrules].
Qed.

Lemma mount_loads_and_generates_witness :
  exists a',
    mount envUTC 5 (initialApp ruledStorage 0) = Returns a'
    /\ inSync a'
    /\ storedImage a'
    /\ map e_date (a_expenses a')
       = ["2024-06-01"; "2024-06-02"; "2024-06-03"; "2024-06-02"]%string
    /\ map nextDueDate (StorageService.getRecurringRules (a_storage a'))
       = ["2024-06-04"; "1999-01-01"]%string.
Proof.
  eexists. split; [vm_compute; reflexivity|].
  destruct (mount_loads_and_generates envUTC 5 (initialApp ruledStorage 0)
              _ eq_refl)
    as (Hs & Hi & _).
  split; [exact Hs | split; [exact Hi | split; reflexivity]].
Defined.


(** ** The form *)

Lemma getExpenses_saveRecurringRules rules ls :
  StorageService.getExpenses (StorageService.saveRecurringRules rules ls)
  = StorageService.getExpenses ls.
Proof. reflexivity. Qed.

Lemma getRecurringRules_saveRecurringRules rules ls :
  StorageService.getRecurringRules
    (StorageService.saveRecurringRules rules ls)
  = map jsonRule rules.
Proof. reflexivity. Qed.

Lemma getRecurringRules_addExpense added ls :
  StorageService.getRecurringRules (StorageService.addExpense added ls)
  = StorageService.getRecurringRules ls.
Proof. reflexivity. Qed.

Lemma getRecurringRules_updateExpense u ls :
  StorageService.getRecurringRules (StorageService.updateExpense u ls)
  = StorageService.getRecurringRules ls.
Proof. reflexivity. Qed.

Lemma getRecurringRules_deleteExpense ident ls :
  StorageService.getRecurringRules (StorageService.deleteExpense ident ls)
  = StorageService.getRecurringRules ls.
Proof. reflexivity. Qed.

(** Reduction that leaves the calls of the storage service in place, and
    then reads through them. *)
Ltac storage_simpl :=
  cbn -[StorageService.getExpenses StorageService.getRecurringRules
        StorageService.addExpense StorageService.updateExpense
        StorageService.deleteExpense StorageService.saveRecurringRules];
  rewrite ?getExpenses_saveRecurringRules, ?getExpenses_addExpense,
    ?getExpenses_updateExpense, ?getExpenses_deleteExpense,
    ?getRecurringRules_saveRecurringRules, ?getRecurringRules_addExpense,
    ?getRecurringRules_updateExpense, ?getRecurringRules_deleteExpense.



(** Editing changes one transaction and nothing else: with a valid amount
    and an expense being edited, [handleSubmit] keeps the sequence of the
    identifiers shown, puts the values of the form, under the identifier
    and the creation time of the expense edited, wherever that identifier
    stands, leaves every other transaction as it is, saves no rule even
    when the form is marked recurring, and draws no identifier. *)
Theorem editing_changes_one_transaction js env f a edited :
  (f_amount f =? "")%string || numberIsNaN js (f_amount f) = false ->
  a_editingExpense a = Some edited ->
  let a' := handleSubmit js env f a in
  map e_id (a_expenses a') = map e_id (a_expenses a)
  /\ (forall x, In x (a_expenses a') -> e_id x = e_id edited ->
        e_createdAt x = e_createdAt edited
        /\ e_date x = f_date f
        /\ e_amount x = Num (parseFloat js (f_amount f))
        /\ e_category x = f_category f
        /\ e_paymentMode x = f_paymentMode f
        /\ e_note x = Some (f_note f)
        /\ e_type x = f_type f)
  /\ (forall x, In x (a_expenses a') -> e_id x <> e_id edited ->
        In x (a_expenses a))
  /\ StorageService.getRecurringRules (a_storage a')
     = StorageService.getRecurringRules (a_storage a)
  /\ a_uuids a' = a_uuids a
  /\ a_editingExpense a' = None
  /\ a_showAddModal a' = false.
Proof.
  intros Hg He. cbv zeta. unfold handleSubmit. rewrite Hg, He.
  unfold saveExpense. storage_simpl. rewrite He. storage_simpl.
  split; [|split; [|split; [|repeat split]]].
  - induction (a_expenses a) as [|x l IH]; [reflexivity|].
    cbn. rewrite IH.
    destruct (String.eqb_spec (e_id x) (e_id edited)) as [E|_];
      [rewrite E|]; reflexivity.
  - intros x Hin Hid. apply in_map_iff in Hin. destruct Hin as (y & Hy & _).
    cbn in Hy. destruct (String.eqb_spec (e_id y) (e_id edited)) as [E|E].
    + subst x. cbn. repeat split.
    + subst y. contradiction.
  - intros x Hin Hid. apply in_map_iff in Hin. destruct Hin as (y & Hy & Hin).
    cbn in Hy. destruct (String.eqb_spec (e_id y) (e_id edited)) as [E|E].
    + subst x. cbn in Hid. contradiction.
    + subst y. exact Hin.
Qed.

Lemma editing_changes_one_transaction_witness :
  map e_id (a_expenses (handleSubmit sampleNumeric envUTC sampleForm
                          (openEdit dinner sampleApp)))
  = map e_id (a_expenses (openEdit dinner sampleApp))
  /\ StorageService.getRecurringRules
       (a_storage (handleSubmit sampleNumeric envUTC sampleForm
                     (openEdit dinner sampleApp)))
     = [].
Proof.
  destruct (editing_changes_one_transaction sampleNumeric envUTC sampleForm
              (openEdit dinner sampleApp) dinner eq_refl eq_refl)
    as (H1 & _ & _ & H4 & _).
  split; [exact H1 | exact H4].
Defined.




(** Clearing the data, confirmed, empties what is shown at once, and the
    next time the page is loaded the effect finds nothing: whatever was
    stored before, rules included, and with any fuel, it returns with
    empty storage, no expenses, no user, no toast and nothing generated. *)
Theorem clear_data_then_reload env fuel a :
  let cleared := handleClearData true a in
  a_expenses cleared = []
  /\ a_user cleared = None
  /\ exists a',
       mount env fuel (initialApp (a_storage cleared) (a_uuids cleared))
       = Returns a'
       /\ a_storage a' = emptyStorage
       /\ a_expenses a' = []
       /\ a_user a' = None
       /\ a_toast a' = None
       /\ a_uuids a' = a_uuids a
       /\ a_loading a' = false.
Proof.
  cbv zeta. split; [reflexivity|]. split; [reflexivity|].
  eexists. split; [reflexivity|]. repeat split.
Qed.

(** [getCurrencySymbol] always answers with the symbol of one of the five
    currencies: that of the currency of the user when its code is one of
    the five, and the rupee sign when there is no user, no currency, or a
    code that is not listed. *)
Theorem currency_symbol_fallback a :
  In (getCurrencySymbol a) (map snd CURRENCIES)
  /\ (forall u code sym,
         a_user a = Some u ->
         readField (u_currency u) = Some code ->
         In (code, sym) CURRENCIES ->
         getCurrencySymbol a = sym)
  /\ (forall u code,
         a_user a = Some u ->
         readField (u_currency u) = Some code ->
         ~ In code (map fst CURRENCIES) ->
         code <> ""%string ->
         getCurrencySymbol a = "₹"%string)
  /\ (a_user a = None -> getCurrencySymbol a = "₹"%string).
Proof.
  unfold getCurrencySymbol. split; [|split; [|split]].
  - destruct (find _ CURRENCIES) as [c|] eqn:Hf; [|left; reflexivity].
    apply find_some in Hf. destruct Hf as (Hin & _).
    cbn in Hin.
    repeat (destruct Hin as [<-|Hin]; [cbn; tauto|]). contradiction.
  - intros u code sym -> -> Hin. cbn in Hin.
    repeat (destruct Hin as [E|Hin]; [injection E as <- <-; reflexivity|]).
    contradiction.
  - intros u code -> -> Hnot Hne.
    unfold orElse at 1. destruct (String.eqb_spec code ""); [contradiction|].
    destruct (find _ CURRENCIES) as [c|] eqn:Hf; [|reflexivity].
    apply find_some in Hf. destruct Hf as (Hin & Hc).
    apply String.eqb_eq in Hc. exfalso. apply Hnot. rewrite <- Hc.
    apply in_map, Hin.
  - intros ->. reflexivity.
Qed.



(** ** The engine: further properties *)

(** The test of the loop (line 94) compares calendar days in local time,
    in every time zone and at every time of day: for a valid date it holds
    exactly when the local day of the date is not after the local day of
    the clock; for the Invalid Date it fails. *)
Theorem loop_test_compares_local_days env :
  (forall t,
      isBefore (Some t) (newDateNow env) || isToday env (Some t) = true
      <-> localDay env t <= localDay env (now env))
  /\ isBefore None (newDateNow env) || isToday env None = false.
Proof.
  split; [|reflexivity].
  intros t. unfold newDateNow. rewrite due_iff_localDay.
  apply Z.leb_le.
Qed.




Lemma cursor_invariant_east_witness :
  (localDay envUTC (now envUTC) < 19875
   /\ reschedule dailyRule "2024-06-04" "2024-06-03" = dailyRule
   /\ {| newExpenses := occurrences envUTC dailyRule 3 19875 1 0;
         hasUpdates := true; drawn := 3 |}
      = {| newExpenses := []; hasUpdates := false; drawn := 0 |})
  \/ exists next fresh,
       nextDueDate (reschedule dailyRule "2024-06-04" "2024-06-03")
       = formatDay next
       /\ localDay envUTC (now envUTC) < next
       /\ lastRun (reschedule dailyRule "2024-06-04" "2024-06-03")
          = Some (formatDay (localDay envUTC (now envUTC)))
       /\ occurrences envUTC dailyRule 3 19875 1 0 = [] ++ fresh
       /\ fresh <> []
       /\ Forall (fun e => exists d,
                      e_date e = formatDay d /\ 19875 <= d < next) fresh.
Proof.
  apply (cursor_invariant_east envUTC envUTC_east 5 dailyRule
           {| newExpenses := []; hasUpdates := false; drawn := 0 |}
           (reschedule dailyRule "2024-06-04" "2024-06-03")
           {| newExpenses := occurrences envUTC dailyRule 3 19875 1 0;
              hasUpdates := true; drawn := 3 |}
           19875); reflexivity.
Defined.


Lemma whileDue_draws env fuel rule today nextDate upd k nextDate' upd' k' :
  whileDue env fuel rule today nextDate upd k = Returns (nextDate', upd', k') ->
  exists fresh,
    upd' = upd ++ fresh
    /\ map e_id fresh = map (uuidv4 env) (seq k (List.length fresh))
    /\ Forall (fun e => e_createdAt e = now env) fresh.
Proof.
  revert nextDate upd k.
  induction fuel as [|fuel IH]; intros nextDate upd k H; [discriminate|].
  rewrite whileDue_S in H.
  assert (Hstop : Returns (nextDate, upd, k) = Returns (nextDate', upd', k') ->
                  exists fresh,
                    upd' = upd ++ fresh
                    /\ map e_id fresh
                       = map (uuidv4 env) (seq k (List.length fresh))
                    /\ Forall (fun e => e_createdAt e = now env) fresh).
  { intros E. injection E as _ <- _. exists []. rewrite app_nil_r.
    repeat split. constructor. }
  destruct (isBefore nextDate today || isToday env nextDate); [|auto].
  destruct (negb (active rule)); [auto|].
  destruct (format env nextDate) as [date|]; simpl in H; [|discriminate].
  apply IH in H. destruct H as (fresh & -> & Hids & Hall).
  exists (instantiate env rule date k :: fresh).
  rewrite <- app_assoc. repeat split.
  - cbn. rewrite Hids. reflexivity.
  - constructor; [reflexivity | exact Hall].
Qed.

Lemma mapRules_draws env fuel today rules acc us acc' :
  mapRules env fuel today rules acc = Returns (us, acc') ->
  exists fresh,
    newExpenses acc' = newExpenses acc ++ fresh
    /\ drawn acc' = (drawn acc + List.length fresh)%nat
    /\ map e_id fresh = map (uuidv4 env) (seq (drawn acc) (List.length fresh))
    /\ Forall (fun e => e_createdAt e = now env) fresh.
Proof.
  revert acc us acc'.
  induction rules as [|rule rest IH]; intros acc us acc' H.
  - injection H as _ <-. exists []. rewrite app_nil_r, Nat.add_0_r.
    repeat split. constructor.
  - rewrite mapRules_cons in H.
    bind_inv H as [rule' acc1] Hp. bind_inv H as [rest' acc2] Hm.
    injection H as _ <-.
    apply IH in Hm. destruct Hm as (f2 & Hn2 & Hd2 & Hi2 & Hc2).
    unfold processRule in Hp. bind_inv Hp as [[nd upd] k] Hw.
    pose proof (whileDue_appends _ _ _ _ _ _ _ _ _ _ Hw) as (f0 & E0 & Ek & _).
    apply whileDue_draws in Hw. destruct Hw as (f1 & E1 & Hi1 & Hc1).
    cbn [app] in E0, E1. subst upd. subst f0.
    assert (Hacc1 : newExpenses acc1 = newExpenses acc ++ f1
                    /\ drawn acc1 = (drawn acc + List.length f1)%nat).
    { destruct (0 <? List.length f1)%nat eqn:Hl.
      - bind_inv Hp as next Hnx. bind_inv Hp as last Hls.
        injection Hp as _ <-. cbn. auto.
      - injection Hp as _ <-. cbn. apply Nat.ltb_ge in Hl.
        destruct f1; [|cbn in Hl; lia].
        rewrite app_nil_r. auto. }
    destruct Hacc1 as (Hn1 & Hd1).
    exists (f1 ++ f2). rewrite Hn2, Hn1, Hd2, Hd1, app_assoc, length_app.
    repeat split.
    + lia.
    + rewrite map_app, seq_app, map_app, Hi1. rewrite Hd1 in Hi2.
      rewrite Hi2. reflexivity.
    + apply Forall_app. split; assumption.
Qed.

Lemma NoDup_map_injective {A B : Type} (f : A -> B) (l : list A) :
  (forall i j, f i = f j -> i = j) -> NoDup l -> NoDup (map f l).
Proof.
  intros Hinj. induction 1 as [|x l Hx _ IH]; cbn; constructor;
    [|exact IH].
  intros Hin. apply in_map_iff in Hin. destruct Hin as (y & Hy & Hin).
  apply Hinj in Hy. subst y. contradiction.
Qed.

(** The identifiers and the creation times of a run.  The instances a run
    generates carry, in their order, the identifiers that [uuidv4] returned
    from the first call of the run on, one call for each instance, and no
    other call is made; each has the clock of the run as creation time.
    So the instances have identifiers distinct from one another whenever
    the generator does not repeat itself. *)
Theorem generated_ids_are_fresh_draws env fuel rules k r :
  materialize env fuel rules k = Returns r ->
  map e_id (generated r)
  = map (uuidv4 env) (seq k (List.length (generated r)))
  /\ drawn (snd r) = (k + generatedCount r)%nat
  /\ Forall (fun e => e_createdAt e = now env) (generated r)
  /\ ((forall i j, uuidv4 env i = uuidv4 env j -> i = j) ->
      NoDup (map e_id (generated r))).
Proof.
  intros H. destruct r as [us acc]. unfold materialize in H.
  apply mapRules_draws in H. destruct H as (fresh & Hn & Hd & Hi & Hc).
  unfold generated, generatedCount, generated. cbn in *. subst fresh.
  repeat split; try assumption.
  intros Hinj. rewrite Hi. apply NoDup_map_injective.
  - exact Hinj.
  - apply seq_NoDup.
Qed.

Lemma generated_ids_are_fresh_draws_witness :
  exists r,
    materialize envUTC 5 [dailyRule] 7 = Returns r
    /\ map e_id (generated r)
       = map sampleIds (seq 7 (List.length (generated r))).
Proof.
  eexists. split; [vm_compute; reflexivity|].
  refine (proj1 (generated_ids_are_fresh_draws envUTC 5 [dailyRule] 7 _ _)).
  vm_compute. reflexivity.
Defined.

(** A rule with a tag outside the four blocks every run.  When the rules
    hold, anywhere, an active rule that is due and whose frequency is not
    one of the four tags, the engine returns for no amount of fuel: the
    loop of that rule never ends, and nothing is saved or shown. *)
Theorem unknown_tag_blocks_every_run env rule :
  isFrequency (frequency rule) = false ->
  active rule = true ->
  due env rule = true ->
  forall fuel rs1 rs2 k r,
    materialize env fuel (rs1 ++ rule :: rs2) k <> Returns r.
Proof.
  intros Hf Ha Hdue fuel rs1 rs2 k r H. unfold materialize in H.
  rewrite mapRules_app in H. bind_inv H as [us1 acc1] H1.
  rewrite mapRules_cons in H. bind_inv H as [rest acc2] H2.
  clear H. bind_inv H2 as [rule' acc'] Hp.
  unfold processRule in Hp. bind_inv Hp as x Hw.
  unfold due in Hdue.
  destruct (newDate env (nextDueDate rule)) as [t|]; [|discriminate].
  rewrite (whileDue_diverges _ _ _ _ _ _ _ Hf Ha Hdue) in Hw. discriminate.
Qed.

Lemma unknown_tag_blocks_every_run_witness :
  due envUTC hourlyRule = true
  /\ forall fuel r,
       materialize envUTC fuel ([dailyRule] ++ hourlyRule :: [frozenRule]) 0
       <> Returns r.
Proof.
  split; [reflexivity|]. intros fuel r.
  apply (unknown_tag_blocks_every_run envUTC hourlyRule); reflexivity.
Defined.

(** Nothing stored, nothing done.  When the key of the rules is absent or
    holds the empty list, [processRecurringExpenses] returns the expenses
    it was given, writes nothing to the store, shows no toast and draws no
    identifier, with any fuel. *)
Theorem no_rules_nothing_happens env fuel currentExpenses w :
  getRecurringRules w = [] ->
  processRecurringExpenses env fuel currentExpenses w
  = Returns (currentExpenses, w).
Proof.
  intros H. unfold processRecurringExpenses, materialize. rewrite H.
  cbn. destruct w. reflexivity.
Qed.

Lemma no_rules_nothing_happens_witness :
  processRecurringExpenses envUTC 0 [lunch]
    {| recurring := None; toast := None; uuids := 4 |}
  = Returns ([lunch], {| recurring := None; toast := None; uuids := 4 |}).
Proof.
  apply (no_rules_nothing_happens envUTC 0 [lunch]).
  reflexivity.
Defined.

(** ** Loading the page again *)

Lemma mapRules_unchanged env fuel today rules acc us acc' :
  mapRules env fuel today rules acc = Returns (us, acc') ->
  newExpenses acc' = newExpenses acc ->
  us = rules.
Proof.
  revert acc us acc'.
  induction rules as [|rule rest IH]; intros acc us acc' H Hn.
  - injection H as <- _. reflexivity.
  - rewrite mapRules_cons in H.
    bind_inv H as [rule' acc1] Hp. bind_inv H as [rest' acc2] Hm.
    injection H as <- <-.
    destruct (processRule_inv _ _ _ _ _ _ _ Hp) as (f1 & E1 & _ & _ & _ & _ & Hr).
    destruct (mapRules_inv _ _ _ _ _ _ _ Hm) as (_ & f2 & E2 & _).
    assert (E : f1 ++ f2 = []).
    { apply (app_inv_head (newExpenses acc)).
      rewrite app_nil_r, app_assoc, <- E1, <- E2. exact Hn. }
    apply app_eq_nil in E. destruct E as (-> & ->).
    rewrite app_nil_r in E1, E2.
    rewrite (Hr eq_refl), (IH _ _ _ Hm E2). reflexivity.
Qed.

(** Rules on which the test of line 94 fails, or that are inactive, come
    back from the map as they are, with nothing generated. *)
Lemma mapRules_on_settled env fuel rules a :
  Forall (fun rule => due env rule = false \/ active rule = false) rules ->
  mapRules env (S fuel) (newDateNow env) rules a = Returns (rules, a).
Proof.
  induction 1 as [|rule rest Hs _ IH]; [reflexivity|].
  rewrite mapRules_cons, (processRule_skip _ _ _ _ Hs). cbn [bind].
  rewrite IH. reflexivity.
Qed.

(** Loading the page a second time changes nothing.  In a zone on or ahead
    of UTC, with the clock between 1970 and the 96th century, when the
    effect run at mounting has returned, running it again from what it has
    stored, at the same instant, returns with any fuel, generates nothing,
    draws no identifier, shows no toast, and leaves the storage, the
    expenses shown and the user as the first run left them. *)
Theorem reload_changes_nothing_east env fuel fuel' ls k a1 :
  0 <= tz env < msPerDay ->
  0 <= now env ->
  localDay env (now env) + 365 < farDay ->
  mount env fuel (initialApp ls k) = Returns a1 ->
  exists a2,
    mount env (S fuel') (initialApp (a_storage a1) (a_uuids a1)) = Returns a2
    /\ a_storage a2 = a_storage a1
    /\ a_expenses a2 = a_expenses a1
    /\ a_user a2 = a_user a1
    /\ a_uuids a2 = a_uuids a1
    /\ a_toast a2 = None.
Proof.
  intros Hz H0 Hfar H1.
  destruct (mount_inv _ _ _ _ H1) as (updated & acc & Hm).
  destruct (mount_returns _ _ _ _ _ Hm)
    as (a' & Hmount & _ & _ & Huser & _ & _ & Hnone).
  assert (Ea : a' = a1) by congruence. subst a'. clear Hmount.
  destruct (mount_stored _ _ _ _ _ _ Hm H1)
    as (Hsync & Hrules & Hsession & Huseritem).
  cbn [a_storage a_uuids initialApp] in Hm, Hrules, Hsession, Huseritem,
    Hnone.
  assert (Hsettled :
            Forall (fun rule => due env rule = false \/ active rule = false)
              (StorageService.getRecurringRules (a_storage a1))).
  { unfold materialize in Hm.
    pose proof (mapRules_leaves_settled env Hz H0 Hfar _ _ _ _ _ Hm) as Hs.
    destruct (newExpenses acc) as [|e l] eqn:Hnew.
    - destruct (Hnone eq_refl) as (Hst & _). rewrite Hst.
      rewrite <- (mapRules_unchanged _ _ _ _ _ _ _ Hm Hnew). exact Hs.
    - rewrite Hrules by discriminate. exact Hs. }
  pose proof (mapRules_on_settled env fuel' _
                {| newExpenses := []; hasUpdates := false;
                   drawn := a_uuids a1 |} Hsettled) as Hrun.
  destruct (mount_returns env (S fuel')
              (initialApp (a_storage a1) (a_uuids a1)) _ _ Hrun)
    as (a2 & Hmount2 & Hshown2 & Hids2 & Huser2 & _ & _ & Hnone2).
  destruct (Hnone2 eq_refl) as (Hst2 & Hto2).
  exists a2. split; [exact Hmount2|].
  split; [exact Hst2|]. split; [rewrite Hshown2; exact Hsync|].
  split; [|split; [exact Hids2 | exact Hto2]].
  rewrite Huser2, Huser. unfold loadUser, StorageService.isAuthenticated,
    StorageService.getUser. cbn [a_storage initialApp].
  rewrite Hsession, Huseritem.
  destruct (sessionItem ls) as [s|]; [destruct (negb (s =? "")%string)|];
    try destruct (userItem ls); reflexivity.
Qed.

Lemma reload_changes_nothing_east_witness :
  exists a1 a2,
    mount envUTC 5 (initialApp ruledStorage 0) = Returns a1
    /\ List.length (a_expenses a1) = 4%nat
    /\ mount envUTC 1 (initialApp (a_storage a1) (a_uuids a1)) = Returns a2
    /\ a_expenses a2 = a_expenses a1.
Proof.
  eexists.
  destruct (reload_changes_nothing_east envUTC 5 0 ruledStorage 0 _
              envUTC_east ltac:(vm_compute; discriminate)
              ltac:(vm_compute; reflexivity) eq_refl)
    as (a2 & Hm & _ & He & _).
  exists a2. split; [vm_compute; reflexivity|].
  split; [reflexivity|]. split; [exact Hm | exact He].
Defined.
